(** * Land-cover workshop notebooks: training-data filter and map post-processing

    A shallow embedding of the two notebooks that carry the analytical
    logic of the repository:

    - [1_Filter_Training_Data.ipynb]: [find_clusters_KMeans] and the
      per-class filtering loop (module [FilterTD]);
    - the post-processing notebook ("Post-process: Smoothing and Reclassify
      Classes"): the majority filter, the four reclassification rules, the
      demonstrated cells for location 0 and the loop over all locations
      (module [PostProc]).

    numpy arrays are lists of rows (module [Np]); the two scikit-image
    operators the notebook calls are modelled after the library
    (module [Skimage]); scikit-learn, odc and deafrica-tools are interfaces
    ([Sklearn], [GeoServices]) of which the notebooks are clients. *)

From Stdlib Require Import ZArith QArith Qround Lqa Bool.
From stdpp Require Import base option list sorting strings gmap.

Local Open Scope Z_scope.

(** ** numpy: two-dimensional arrays *)

Module Np.

(** A 2-D array is the list of its rows. *)
Abbreviation array A := (list (list A)).

(** [a[r, c]], [None] outside the array. *)
Definition get {A} (a : array A) (r c : nat) : option A :=
  row ← a !! r; row !! c.

(** [a[r, c]] at signed coordinates: no wrap-around, a negative index is
    outside (the C loops of scikit-image test [0 <= r < rows]). *)
Definition get_at {A} (a : array A) (r c : Z) : option A :=
  if (r <? 0) || (c <? 0) then None else get a (Z.to_nat r) (Z.to_nat c).

(** An array on the grid of [a] whose pixel [(r, c)] is [f r c]. *)
Definition on_grid {A B} (a : array A) (f : nat → nat → B) : array B :=
  imap (λ r row, imap (λ c _, f r c) row) a.

(** Element-wise unary and binary operations ([a == k], [a & b], ...). *)
Definition map1 {A B} (f : A → B) (a : array A) : array B :=
  (λ row : list A, f <$> row) <$> a.

Definition map2 {A B C} (f : A → B → C) (a : array A) (b : array B)
  : array C :=
  zip_with (zip_with f) a b.

(** [a == k] and [a != k] on integer arrays. *)
Definition eq_scalar (a : array Z) (k : Z) : array bool := map1 (Z.eqb k) a.
Definition ne_scalar (a : array Z) (k : Z) : array bool :=
  map1 (λ v, negb (Z.eqb k v)) a.

Definition and_ (a b : array bool) : array bool := map2 andb a b.
Definition or_ (a b : array bool) : array bool := map2 orb a b.

(** Boolean-mask assignment [a[mask] = v]. *)
Definition assign_where (a : array Z) (mask : array bool) (v : Z)
  : array Z :=
  map2 (λ old (m : bool), if m then v else old) a mask.

End Np.

(** ** scikit-image: [disk], [filters.rank.modal], [binary_dilation] *)

Module Skimage.
Import Np.

(** [range(-radius, radius + 1)]. *)
Definition span (radius : Z) : list Z :=
  (λ i : nat, Z.of_nat i - radius) <$> seq 0 (Z.to_nat (2 * radius + 1)).

(** [disk(radius)]: the offsets [(dr, dc)] of the footprint's foreground,
    [dr**2 + dc**2 <= radius**2], relative to its centre. *)
Definition disk (radius : Z) : list (Z * Z) :=
  dr ← span radius;
  filter (λ p : Z * Z, p.1 * p.1 + p.2 * p.2 ≤ radius * radius)
         ((λ dc, (dr, dc)) <$> span radius).

(** The local histogram population of the rank filters: the values of the
    pixels under the footprint centred at [(r, c)] that are inside the
    image and selected by [mask]. *)
Definition neighbourhood (image : array Z) (footprint : list (Z * Z))
           (mask : array bool) (r c : nat) : list Z :=
  omap (λ d : Z * Z,
          let rr := Z.of_nat r + d.1 in
          let cc := Z.of_nat c + d.2 in
          match get_at mask rr cc with
          | Some true => get_at image rr cc
          | _ => None
          end) footprint.

(** [histo[i]]. *)
Definition histo (pop : list Z) (i : Z) : nat :=
  length (filter (λ v, v = i) pop).

Definition n_bins : nat := 256.

(** [_kernel_modal]: scan the bins upwards, keep the first bin holding the
    largest count; an empty population gives 0. *)
Definition kernel_modal (pop : list Z) : Z :=
  match pop with
  | [] => 0
  | _ =>
      snd (foldl (λ (acc : nat * Z) (i : Z),
                    if (acc.1 <? histo pop i)%nat then (histo pop i, i)
                    else acc)
                 (0%nat, 0) (Z.of_nat <$> seq 0 n_bins))
  end.

(** [modal(image, footprint=..., mask=...)] on a uint8 image: the kernel
    is evaluated at every pixel; [mask] only restricts the population. *)
Definition modal (image : array Z) (footprint : list (Z * Z))
           (mask : array bool) : array Z :=
  on_grid image (λ r c, kernel_modal (neighbourhood image footprint mask r c)).

(** [binary_dilation(image, footprint=...)]: a pixel is set when the
    footprint centred on it meets a set pixel; outside the image counts
    as unset. *)
Definition binary_dilation (image : array bool) (footprint : list (Z * Z))
  : array bool :=
  on_grid image
    (λ r c,
       existsb (λ d : Z * Z,
                  match get_at image (Z.of_nat r + d.1) (Z.of_nat c + d.2) with
                  | Some true => true
                  | _ => false
                  end) footprint).

End Skimage.

(** ** The post-processing notebook *)

Module PostProc.
Import Np Skimage.

(** [dict_map]: the pixel value of each class. *)
Inductive lc_class :=
| Forest | Grassland | Shrubland | Perennial_Cropland
| Annual_Cropland | Wetland | Water_Body | Urban_Settlement.

Definition dict_map (k : lc_class) : Z :=
  match k with
  | Forest => 1 | Grassland => 5 | Shrubland => 7 | Perennial_Cropland => 9
  | Annual_Cropland => 10 | Wetland => 11 | Water_Body => 12
  | Urban_Settlement => 13
  end.

(** Pixel values of the auxiliary rasters: a number, or NaN where the
    layer has no data.  Every comparison with NaN is false. *)
Inductive fval := NaN | Num (q : Q).

Definition le_scalar (a : array fval) (k : Q) : array bool :=
  map1 (λ v, match v with Num q => Qle_bool q k | NaN => false end) a.

Definition feq_scalar (a : array fval) (k : Q) : array bool :=
  map1 (λ v, match v with Num q => Qeq_bool q k | NaN => false end) a.

(** The [resampling=] argument of [xr_reproject]. *)
Inductive resampling := nearest | average.

(** The raster layers handed to [xr_reproject], by variable name. *)
Inductive layer := Hand | GoogleBuildings | WSF2019.

(** The services the notebook imports: [odc.algo.xr_reproject],
    [deafrica_tools.spatial.xr_rasterize] and the conversion of a dataset to
    a numpy array.  A reprojected or rasterised layer lives on the grid of
    the geobox it was made for, so its array is read pixel by pixel on the
    grid of the land cover map. *)
Class GeoServices := {
  geobox : Type;
  dataset : Type;
  geodataframe : Type;
  xr_reproject : dataset → geobox → resampling → dataset;
  to_numpy : dataset → nat → nat → fval;
  xr_rasterize : geodataframe → geobox → nat → nat → Z
}.

Section Notebook.
Context `{GeoServices}.

(** A land cover map as loaded by [rioxarray.open_rasterio]: the grid
    ([lc_map.geobox]) and the uint8 pixel values. *)
Record data_array := {
  da_geobox : geobox;
  da_values : array Z
}.

(** The notebook's global variables that the cells read or assign, and the
    requests sent to [xr_reproject] so far (newest last). *)
Record notebook := {
  hand : dataset;
  wsf2019 : dataset;
  google_buildings : dataset;
  river_network : geodataframe;
  road_network : geodataframe;
  prediction_maps_postproc : list data_array;
  reprojections : list (layer * resampling)
}.

(** [modal(np_lc_map, footprint=disk(2), mask=np_lc_map!=0)] *)
Definition majority_filter (np_lc_map : array Z) : array Z :=
  modal np_lc_map (disk 2) (ne_scalar np_lc_map 0).

(** [np_lc_map_postproc[((np_lc_map==dict_map['Water Body'])&(np_hand<=45))
                       |(np_river_network_mask==1)]=dict_map['Water Body']] *)
Definition water_rule (np_lc_map_postproc np_lc_map : array Z)
           (np_hand : array fval) (np_river_network_mask : array Z) : array Z :=
  assign_where np_lc_map_postproc
    (or_ (and_ (eq_scalar np_lc_map (dict_map Water_Body)) (le_scalar np_hand 45))
         (eq_scalar np_river_network_mask 1))
    (dict_map Water_Body).

(** [np_lc_map_postproc[(np_google_buildings_mask==1)|(np_wsf2019==k)]
      =dict_map['Urban Settlement']], where the literal [k] is 255 in the
    demonstrated cell and 1 in the loop. *)
Definition buildings_rule (k : Q) (np_lc_map_postproc : array Z)
           (np_google_buildings_mask np_wsf2019 : array fval) : array Z :=
  assign_where np_lc_map_postproc
    (or_ (feq_scalar np_google_buildings_mask 1) (feq_scalar np_wsf2019 k))
    (dict_map Urban_Settlement).

(** [urban_buffered=binary_dilation(np_lc_map==dict_map['Urban Settlement'],
                                    footprint=disk(5))] *)
Definition urban_buffered (np_lc_map : array Z) : array bool :=
  binary_dilation (eq_scalar np_lc_map (dict_map Urban_Settlement)) (disk 5).

(** [(urban_buffered==1)&(np_lc_map==dict_map['Wetland'])] *)
Definition cropland_mask (np_lc_map : array Z) : array bool :=
  and_ (map1 (Bool.eqb true) (urban_buffered np_lc_map))
       (eq_scalar np_lc_map (dict_map Wetland)).

(** [np_lc_map_postproc[...]=dict_map['Annual Cropland']] *)
Definition cropland_rule (np_lc_map_postproc np_lc_map : array Z) : array Z :=
  assign_where np_lc_map_postproc (cropland_mask np_lc_map)
    (dict_map Annual_Cropland).

(** [np_lc_map_postproc[np_road_network_mask==1]=dict_map['Urban Settlement']] *)
Definition road_rule (np_lc_map_postproc np_road_network_mask : array Z)
  : array Z :=
  assign_where np_lc_map_postproc (eq_scalar np_road_network_mask 1)
    (dict_map Urban_Settlement).

(** The cells that demonstrate the steps on one map ([i=0]), in the order
    the notebook runs them.  They assign the globals [hand] and [wsf2019];
    the result is the final [np_lc_map_postproc] and the notebook state. *)
Definition demo_cells (nb : notebook) (lc_map : data_array)
  : array Z * notebook :=
  let np_lc_map := da_values lc_map in
  let np_lc_map_postproc := majority_filter np_lc_map in
  let ds_geobox := da_geobox lc_map in
  let hand' := xr_reproject (hand nb) ds_geobox average in
  let np_hand := on_grid np_lc_map (to_numpy hand') in
  let np_river_network_mask :=
    on_grid np_lc_map (xr_rasterize (river_network nb) ds_geobox) in
  let np_lc_map_postproc :=
    water_rule np_lc_map_postproc np_lc_map np_hand np_river_network_mask in
  let google_buildings_mask :=
    xr_reproject (google_buildings nb) ds_geobox average in
  let np_google_buildings_mask :=
    on_grid np_lc_map (to_numpy google_buildings_mask) in
  let wsf2019' := xr_reproject (wsf2019 nb) ds_geobox nearest in
  let np_wsf2019 := on_grid np_lc_map (to_numpy wsf2019') in
  let np_lc_map_postproc :=
    buildings_rule 255 np_lc_map_postproc np_google_buildings_mask np_wsf2019 in
  let np_lc_map_postproc := cropland_rule np_lc_map_postproc np_lc_map in
  let np_road_network_mask :=
    on_grid np_lc_map (xr_rasterize (road_network nb) ds_geobox) in
  let np_lc_map_postproc := road_rule np_lc_map_postproc np_road_network_mask in
  (np_lc_map_postproc,
   {| hand := hand';
      wsf2019 := wsf2019';
      google_buildings := google_buildings nb;
      river_network := river_network nb;
      road_network := road_network nb;
      prediction_maps_postproc := prediction_maps_postproc nb;
      reprojections :=
        reprojections nb
          ++ [(Hand, average); (GoogleBuildings, average); (WSF2019, nearest)] |}).

(** The body of [for i in range(0,len(prediction_maps))], one location. *)
Definition loop_body (nb : notebook) (lc_map : data_array) : notebook :=
  let np_lc_map := da_values lc_map in
  let np_lc_map_postproc := majority_filter np_lc_map in
  let ds_geobox := da_geobox lc_map in
  let hand' := xr_reproject (hand nb) ds_geobox average in
  let np_hand := on_grid np_lc_map (to_numpy hand') in
  let np_river_network_mask :=
    on_grid np_lc_map (xr_rasterize (river_network nb) ds_geobox) in
  let np_lc_map_postproc :=
    water_rule np_lc_map_postproc np_lc_map np_hand np_river_network_mask in
  let google_buildings_mask :=
    xr_reproject (google_buildings nb) ds_geobox average in
  let np_google_buildings_mask :=
    on_grid np_lc_map (to_numpy google_buildings_mask) in
  let wsf2019' := xr_reproject (wsf2019 nb) ds_geobox nearest in
  let np_wsf2019 := on_grid np_lc_map (to_numpy wsf2019') in
  let np_lc_map_postproc :=
    buildings_rule 1 np_lc_map_postproc np_google_buildings_mask np_wsf2019 in
  let np_lc_map_postproc := cropland_rule np_lc_map_postproc np_lc_map in
  let np_road_network_mask :=
    on_grid np_lc_map (xr_rasterize (road_network nb) ds_geobox) in
  let np_lc_map_postproc := road_rule np_lc_map_postproc np_road_network_mask in
  let lc_map_postproc :=
    {| da_geobox := ds_geobox; da_values := np_lc_map_postproc |} in
  {| hand := hand';
     wsf2019 := wsf2019';
     google_buildings := google_buildings nb;
     river_network := river_network nb;
     road_network := road_network nb;
     prediction_maps_postproc := prediction_maps_postproc nb ++ [lc_map_postproc];
     reprojections :=
       reprojections nb
         ++ [(Hand, average); (GoogleBuildings, average); (WSF2019, nearest)] |}.

(** [prediction_maps_postproc=[]; for i in range(0,len(prediction_maps)): ...] *)
Definition refinement_loop (nb : notebook) (prediction_maps : list data_array)
  : notebook :=
  foldl loop_body
        {| hand := hand nb;
           wsf2019 := wsf2019 nb;
           google_buildings := google_buildings nb;
           river_network := river_network nb;
           road_network := road_network nb;
           prediction_maps_postproc := [];
           reprojections := reprojections nb |}
        prediction_maps.

(** The refined raster the loop body produces for one location. *)
Definition refined (nb : notebook) (lc_map : data_array) : array Z :=
  match last (prediction_maps_postproc (loop_body nb lc_map)) with
  | Some out => da_values out
  | None => []
  end.

End Notebook.

Arguments data_array {_}.
Arguments notebook {_}.

End PostProc.

(** ** Reference services on one shared lattice

    An executable instance of [GeoServices] for running the notebook on
    small inputs: every layer is cut from one common lattice (same
    reference system as the land cover maps).  A layer has the cell size of
    the maps, or a whole number of its cells fills one map pixel.
    Reprojection onto a grid looks, for each pixel of the grid, at the block
    of source cells under it: [nearest] reads the cell at the centre of the
    block, [average] takes the mean of the numbers in the block.  A pixel
    with no source cell under it gets 0, the fill value the reprojection
    writes outside the source. *)

Module Lattice.
Import Np PostProc.

(** Where a grid sits on the lattice, and its shape. *)
Record window := {
  w_row : Z;
  w_col : Z;
  w_height : nat;
  w_width : nat
}.

(** A raster layer: the lattice position (in map pixels) of its first
    cell, the number of its cells along one side of a map pixel, and its
    cells. *)
Record raster := {
  r_row : Z;
  r_col : Z;
  r_cells : Z;
  r_data : array fval
}.

(** The source cells under the map pixel at lattice position [(y, x)]. *)
Definition block (d : raster) (y x : Z) : list (option fval) :=
  let top := (y - r_row d) * r_cells d in
  let left := (x - r_col d) * r_cells d in
  a ← seq 0 (Z.to_nat (r_cells d));
  b ← seq 0 (Z.to_nat (r_cells d));
  [get_at (r_data d) (top + Z.of_nat a) (left + Z.of_nat b)].

Definition numbers (cells : list (option fval)) : list Q :=
  omap (λ cell, match cell with Some (Num q) => Some q | _ => None end) cells.

Definition mean (qs : list Q) : fval :=
  match qs with
  | [] => Num 0
  | _ => Num (foldr Qplus 0%Q qs / inject_Z (Z.of_nat (length qs)))
  end.

Definition resample (d : raster) (m : resampling) (y x : Z) : fval :=
  match m with
  | nearest =>
      default (Num 0)
        (get_at (r_data d)
                ((y - r_row d) * r_cells d + r_cells d / 2)
                ((x - r_col d) * r_cells d + r_cells d / 2))
  | average => mean (numbers (block d y x))
  end.

Definition reproject (d : raster) (g : window) (m : resampling) : raster :=
  {| r_row := w_row g;
     r_col := w_col g;
     r_cells := 1;
     r_data :=
       (λ i : nat,
          (λ j : nat,
             resample d m (w_row g + Z.of_nat i) (w_col g + Z.of_nat j))
            <$> seq 0 (w_width g))
         <$> seq 0 (w_height g) |}.

Definition pixel (d : raster) (r c : nat) : fval :=
  default NaN (get (r_data d) r c).

(** A vector layer, already buffered and filtered: the lattice cells its
    geometries cover. *)
Definition rasterize (cells : list (Z * Z)) (g : window) (r c : nat) : Z :=
  if decide ((w_row g + Z.of_nat r, w_col g + Z.of_nat c) ∈ cells) then 1 else 0.

#[export] Instance services : GeoServices := {|
  geobox := window;
  dataset := raster;
  geodataframe := list (Z * Z);
  xr_reproject := reproject;
  to_numpy := pixel;
  xr_rasterize := rasterize
|}.

(** A layer with the cell size of the maps, holding the single value [v]
    on [h] rows and [w] columns. *)
Definition constant (row col : Z) (h w : nat) (v : fval) : raster :=
  {| r_row := row; r_col := col; r_cells := 1;
     r_data := replicate h (replicate w v) |}.

Definition start (hand_layer wsf_layer buildings_layer : raster)
           (rivers roads : list (Z * Z)) : notebook :=
  {| hand := hand_layer;
     wsf2019 := wsf_layer;
     google_buildings := buildings_layer;
     river_network := rivers;
     road_network := roads;
     prediction_maps_postproc := [];
     reprojections := [] |}.

End Lattice.

(** ** The training-data filter notebook *)

Module FilterTD.

(** Python exceptions the cells can end with. *)
Inductive exn := ValueError | AttributeError.

Inductive result (A : Type) :=
| Ok (a : A)
| Raise (e : exn).
Arguments Ok {A} a.
Arguments Raise {A} e.

#[export] Instance result_bind : MBind result := λ A B k m,
  match m with
  | Ok a => k a
  | Raise e => Raise e
  end.

(** A [for] loop whose body may raise: the first exception ends the loop. *)
Fixpoint for_each {S A} (body : S → A → result S) (s : S) (xs : list A)
  : result S :=
  match xs with
  | [] => Ok s
  | x :: xs' => s' ← body s x; for_each body s' xs'
  end.

(** [range(lo, hi)] *)
Definition range (lo hi : Z) : list Z :=
  (λ i : nat, lo + Z.of_nat i) <$> seq 0 (Z.to_nat (hi - lo)).

(** [a < b] on scores. *)
Definition Qlt_bool (a b : Q) : bool := negb (Qle_bool b a).

(** A 2-D feature array: one row of numbers per point. *)
Abbreviation features := (list (list Q)).

(** What the notebook imports from scikit-learn.  Each call may raise. *)
Class Sklearn := {
  kmeans : Type;
  scaler : Type;
  (** [KMeans(n_clusters=n, random_state=seed).fit(data)] *)
  KMeans_fit : Z → Z → features → result kmeans;
  (** [model.predict(data)]: one cluster label per row *)
  predict : kmeans → features → result (list Z);
  (** [metrics.calinski_harabasz_score(data, labels)] *)
  calinski_harabasz_score : features → list Z → result Q;
  (** [scaler.fit(data)]: the scaler is reset, then fitted to [data] *)
  StandardScaler_fit : features → result scaler;
  (** [scaler.transform(data)] *)
  transform : scaler → features → result features
}.

(** A row of the feature tables: the class label (first column), the
    feature columns, and the three trailing coordinate and geometry
    columns, here the identity of the point. *)
Record point := {
  LC_Class_I : Z;
  bands : list Q;
  geometry : Z * Z
}.

(** A row after the columns ['cluster'] and ['cluster_frequency'] are set. *)
Record clustered := {
  row : point;
  cluster : Z;
  cluster_frequency : Q
}.

(** [df[df[class_attr]==i].reset_index(drop=True)] *)
Definition of_class (df : list point) (i : Z) : list point :=
  filter (λ p, LC_Class_I p = i) df.

(** [df.iloc[:,1:-3]] *)
Definition iloc_features (df : list point) : features := bands <$> df.

(** [df[class_attr].unique()]: the labels in order of first appearance. *)
Fixpoint unique (labels : list Z) : list Z :=
  match labels with
  | [] => []
  | l :: rest => l :: filter (λ x, x ≠ l) (unique rest)
  end.

(** [labels.value_counts(normalize=True)[l]]: the share of [l]. *)
Definition value_counts_normalize (labels : list Z) (l : Z) : Q :=
  (inject_Z (Z.of_nat (length (filter (λ x, x = l) labels)))
   / inject_Z (Z.of_nat (length labels)))%Q.

(** [td['cluster']=labels; td['cluster_frequency']=
     td['cluster'].map(td['cluster'].value_counts(normalize=True))];
    pandas refuses a column whose length differs from the table's. *)
Definition with_clusters (td : list point) (labels : list Z)
  : result (list clustered) :=
  if decide (length labels = length td) then
    Ok (zip_with (λ p l, {| row := p; cluster := l;
                            cluster_frequency := value_counts_normalize labels l |})
                 td labels)
  else Raise ValueError.

(** [td[td['cluster_frequency']>=frequency_threshold]] *)
Definition filter_by_frequency (frequency_threshold : Q) (td : list clustered)
  : list clustered :=
  filter (λ p, Qle_bool frequency_threshold (cluster_frequency p) = true) td.

Definition frequency_threshold : Q := 0.05.

Section Cells.
Context `{Sklearn}.

(** The loop variables of [find_clusters_KMeans]. *)
Record search := {
  highest_score : Q;
  n_cluster_optimal : Z;
  kmeans_model_optimal : option kmeans;
  labels_optimal : option (list Z)
}.

(** One iteration of [for n_cluster in range(min_cluster,max_cluster)]. *)
Definition try_cluster (data : features) (s : search) (n_cluster : Z)
  : result search :=
  kmeans_model ← KMeans_fit n_cluster 1 data;
  labels ← predict kmeans_model data;
  score ← calinski_harabasz_score data labels;
  if Qeq_bool (highest_score s) (-999) || Qlt_bool (highest_score s) score
  then Ok {| highest_score := score;
             n_cluster_optimal := n_cluster;
             kmeans_model_optimal := Some kmeans_model;
             labels_optimal := Some labels |}
  else Ok s.

(** [def find_clusters_KMeans(data,min_cluster=3,max_cluster=20)] *)
Definition find_clusters_KMeans (data : features) (min_cluster max_cluster : Z)
  : result (Z * option kmeans * option (list Z)) :=
  s ← for_each (try_cluster data)
         {| highest_score := -999;
            n_cluster_optimal := min_cluster;
            kmeans_model_optimal := None;
            labels_optimal := None |}
         (range min_cluster max_cluster);
  Ok (n_cluster_optimal s, kmeans_model_optimal s, labels_optimal s).

(** The body of [for i in lc_classes], up to the filtered table of class [i]. *)
Definition filter_class (training_features rand_samples_features : list point)
           (i : Z) : result (list clustered) :=
  let rand_features_single_class := of_class rand_samples_features i in
  let td_single_class := of_class training_features i in
  sc ← StandardScaler_fit (iloc_features rand_features_single_class);
  rand_features_single_class ←
    transform sc (iloc_features rand_features_single_class);
  found ← find_clusters_KMeans rand_features_single_class 3 20;
  let kmeans_model_optimal := found.1.2 in
  model_input ← transform sc (iloc_features td_single_class);
  labels_kmeans ←
    match kmeans_model_optimal with
    | Some model => predict model model_input
    | None => Raise AttributeError
    end;
  td_single_class ← with_clusters td_single_class labels_kmeans;
  Ok (filter_by_frequency frequency_threshold td_single_class).

(** [if training_features_filtered is None: ... else: pd.concat([...])] *)
Definition append_filtered (training_features_filtered : option (list clustered))
           (td_single_class_filtered : list clustered)
  : option (list clustered) :=
  match training_features_filtered with
  | None => Some td_single_class_filtered
  | Some acc => Some (acc ++ td_single_class_filtered)
  end.

(** [for i in lc_classes: ...] starting from [training_features_filtered]. *)
Definition filtering_loop (training_features rand_samples_features : list point)
           (lc_classes : list Z) (training_features_filtered : option (list clustered))
  : result (option (list clustered)) :=
  for_each
    (λ acc i,
       td_single_class_filtered ←
         filter_class training_features rand_samples_features i;
       Ok (append_filtered acc td_single_class_filtered))
    training_features_filtered lc_classes.

(** The cell: [training_features_filtered=None], then the loop over
    [lc_classes=training_features[class_attr].unique()]. *)
Definition filter_training_data (training_features rand_samples_features : list point)
  : result (option (list clustered)) :=
  filtering_loop training_features rand_samples_features
                 (unique (LC_Class_I <$> training_features)) None.

End Cells.

Arguments search {_}.

End FilterTD.

(** ** A stand-in for scikit-learn

    An executable instance of [Sklearn] for running the cells on small
    tables.  Like the library, [KMeans.fit] raises [ValueError] when there
    are fewer samples than clusters, [calinski_harabasz_score] raises it
    unless the number of distinct labels lies strictly between 1 and the
    number of samples, and [StandardScaler.fit] raises it on an empty
    table.  The numbers are simple on purpose: a point goes to the
    cluster numbered by the integer part of its first feature modulo the
    number of clusters, and the score is the number of label changes along
    the table. *)

Module Stub.
Import FilterTD.

(** The fitted model is the number of clusters it was asked for. *)
Definition fit (n_clusters seed : Z) (data : features) : result Z :=
  if Z.of_nat (length data) <? n_clusters then Raise ValueError else Ok n_clusters.

(** The cluster of one point. *)
Definition nearest_centre (n_clusters : Z) (x : list Q) : Z :=
  Qfloor (hd 0%Q x) mod n_clusters.

Definition assign (n_clusters : Z) (data : features) : result (list Z) :=
  Ok (nearest_centre n_clusters <$> data).

(** How many times the label changes from one row to the next. *)
Fixpoint changes (labels : list Z) : Z :=
  match labels with
  | a :: (b :: _) as rest => (if decide (a = b) then 0 else 1) + changes rest
  | _ => 0
  end.

(** The score is defined for more than one label and fewer labels than
    samples; otherwise the scorer raises. *)
Definition score (data : features) (labels : list Z) : result Q :=
  let n_labels := length (remove_dups labels) in
  if bool_decide (1 < n_labels < length data)%nat
  then Ok (inject_Z (changes labels))
  else Raise ValueError.

(** The scaler leaves the features as they are. *)
Definition fit_scaler (data : features) : result unit :=
  match data with
  | [] => Raise ValueError
  | _ => Ok tt
  end.

#[export] Instance sklearn : Sklearn := {|
  kmeans := Z;
  scaler := unit;
  KMeans_fit := fit;
  predict := assign;
  calinski_harabasz_score := score;
  StandardScaler_fit := fit_scaler;
  transform := λ _ data, Ok data
|}.

(** [n] points of class [label] whose single feature runs over [0 .. n-1]. *)
Definition points (label : Z) (n : nat) : list point :=
  (λ i : nat, {| LC_Class_I := label;
                 bands := [inject_Z (Z.of_nat i)];
                 geometry := (label, Z.of_nat i) |}) <$> seq 0 n.

End Stub.

(** ** Predicates and inputs used in the statements *)

Module Cases.
Import Np Skimage PostProc.

(** The no-data value and the values of [dict_map]. *)
Definition class_codes : list Z :=
  0 :: (dict_map <$> [Forest; Grassland; Shrubland; Perennial_Cropland;
                      Annual_Cropland; Wetland; Water_Body; Urban_Settlement]).

Definition in_class_codes (v : Z) : bool := bool_decide (v ∈ class_codes).

(** Every pixel of the array passes the test [p]. *)
Definition every_pixel {A} (p : A → bool) (a : array A) : bool :=
  forallb (forallb p) a.

Definition is_uint8 (v : Z) : bool := (0 <=? v) && (v <=? 255).

(** Some pixel other than no-data lies within the radius-2 disk around
    [(r, c)]. *)
Definition valid_within_2 (image : array Z) (r c : nat) : Prop :=
  ∃ dr dc v, dr * dr + dc * dc ≤ 2 * 2
             ∧ get_at image (Z.of_nat r + dr) (Z.of_nat c + dc) = Some v
             ∧ v ≠ 0.

(** Some Urban Settlement pixel of [np_lc_map] lies within the radius-5 disk
    around [(r, c)]. *)
Definition urban_within_5 (np_lc_map : array Z) (r c : nat) : Prop :=
  ∃ dr dc, dr * dr + dc * dc ≤ 5 * 5
           ∧ get_at np_lc_map (Z.of_nat r + dr) (Z.of_nat c + dc)
             = Some (dict_map Urban_Settlement).

(** How many cells of the radius-2 disk around [(r, c)] lie in the image
    and hold the value [w]. *)
Definition occurrences (image : array Z) (r c : nat) (w : Z) : nat :=
  length (filter (λ d : Z * Z,
                    get_at image (Z.of_nat r + d.1) (Z.of_nat c + d.2) = Some w)
                 (disk 2)).

Section AsSpecified.
Context `{GeoServices}.

(** The refined raster of one location when the layers are aligned the way
    the spec words it: the elevation layer with the average method, the
    building footprint and the settlement footprint with the nearest
    method.  The rules are those of the loop body. *)
Definition refined_nearest_masks (nb : notebook) (lc_map : data_array)
  : array Z :=
  let np_lc_map := da_values lc_map in
  let ds_geobox := da_geobox lc_map in
  let np_hand :=
    on_grid np_lc_map (to_numpy (xr_reproject (hand nb) ds_geobox average)) in
  let np_river_network_mask :=
    on_grid np_lc_map (xr_rasterize (river_network nb) ds_geobox) in
  let np_google_buildings_mask :=
    on_grid np_lc_map
            (to_numpy (xr_reproject (google_buildings nb) ds_geobox nearest)) in
  let np_wsf2019 :=
    on_grid np_lc_map (to_numpy (xr_reproject (wsf2019 nb) ds_geobox nearest)) in
  let np_road_network_mask :=
    on_grid np_lc_map (xr_rasterize (road_network nb) ds_geobox) in
  road_rule
    (cropland_rule
       (buildings_rule 1
          (water_rule (majority_filter np_lc_map) np_lc_map
                      np_hand np_river_network_mask)
          np_google_buildings_mask np_wsf2019)
       np_lc_map)
    np_road_network_mask.

End AsSpecified.

(** One row of ten cells at the lattice origin: height above drainage 10 m
    everywhere, no settlement, no building. *)
Definition flat_hand : Lattice.raster := Lattice.constant 0 0 1 10 (Num 10).
Definition no_settlement : Lattice.raster := Lattice.constant 0 0 1 10 (Num 0).
Definition no_building : Lattice.raster := Lattice.constant 0 0 1 10 (Num 0).

(** A map of [values] whose first pixel is the lattice cell [(0, col)]. *)
Definition strip (col : Z) (values : list Z) : @data_array Lattice.services :=
  {| da_geobox :=
       Lattice.Build_window 0 col 1 (length values) : @geobox Lattice.services;
     da_values := [values] |}.

(** Two rows of ten cells at the lattice origin, holding [v] everywhere. *)
Definition level (v : Q) : Lattice.raster := Lattice.constant 0 0 2 10 (Num v).

(** A map of the rows [values] whose first pixel is the lattice cell
    [(0, col)]. *)
Definition tile (col : Z) (values : list (list Z))
  : @data_array Lattice.services :=
  {| da_geobox :=
       Lattice.Build_window 0 col (length values) (length (hd [] values))
       : @geobox Lattice.services;
     da_values := values |}.

(** A building footprint whose cells are a third of a map pixel: six rows
    of six cells under the map pixels of rows 0-1 and columns 0-1, with one
    building cell, the one at the centre of map pixel [(0, 0)]. *)
Definition centre_building : Lattice.raster :=
  {| Lattice.r_row := 0;
     Lattice.r_col := 0;
     Lattice.r_cells := 3;
     Lattice.r_data :=
       [[Num 0; Num 0; Num 0; Num 0; Num 0; Num 0];
        [Num 0; Num 1; Num 0; Num 0; Num 0; Num 0];
        [Num 0; Num 0; Num 0; Num 0; Num 0; Num 0];
        [Num 0; Num 0; Num 0; Num 0; Num 0; Num 0];
        [Num 0; Num 0; Num 0; Num 0; Num 0; Num 0];
        [Num 0; Num 0; Num 0; Num 0; Num 0; Num 0]] |}.

End Cases.

Module FilterCases.
Import FilterTD.

Section Search.
Context `{Sklearn}.

(** The loop variables once the search has settled on [k] clusters, where
    [mdl], [lab] and [score] give the model, labels and score of each count. *)
Definition settled_on (mdl : Z → kmeans) (lab : Z → list Z) (score : Z → Q)
           (k : Z) : search :=
  {| highest_score := score k;
     n_cluster_optimal := k;
     kmeans_model_optimal := Some (mdl k);
     labels_optimal := Some (lab k) |}.

(** The loop variables hold a candidate of [lo .. a-1] together with the
    model, the labels and the score that were computed for it. *)
Definition scored (data : features) (lo a : Z) (s : search) : Prop :=
  lo ≤ n_cluster_optimal s < a
  ∧ ∃ mdl lab,
      kmeans_model_optimal s = Some mdl
      ∧ labels_optimal s = Some lab
      ∧ KMeans_fit (n_cluster_optimal s) 1 data = Ok mdl
      ∧ predict mdl data = Ok lab
      ∧ calinski_harabasz_score data lab = Ok (highest_score s).

End Search.

(** Six samples whose first feature is 0, 0, 3, 3, 4, 4. *)
Definition six_samples : features :=
  [[0]; [0]; [3]; [3]; [4]; [4]]%Q.

(** What the stand-in computes on [six_samples] for each number of
    clusters: the model is the count itself. *)
Definition six_labels (n : Z) : list Z := Stub.nearest_centre n <$> six_samples.
Definition six_scores (n : Z) : Q := inject_Z (Stub.changes (six_labels n)).

(** 200 training points of one class: 190 in cluster 0, 10 in cluster 1. *)
Definition boundary_points : list point := Stub.points 1 200.
Definition boundary_labels : list Z := replicate 190 0 ++ replicate 10 1.

(** The table of a class with a single training point, in cluster 0. *)
Definition lone_row : clustered :=
  {| row := {| LC_Class_I := 1; bands := [inject_Z 0]; geometry := (1, 0) |};
     cluster := 0;
     cluster_frequency := value_counts_normalize [0] 0 |}.

(** The table of a class with three training points: the first two in
    cluster 0, the third in cluster 1. *)
Definition three_rows : list clustered :=
  match with_clusters (Stub.points 1 3) [0; 0; 1] with
  | Ok rows => rows
  | Raise _ => []
  end.

(** Its first and second row, two different points of cluster 0. *)
Definition first_row : clustered :=
  {| row := {| LC_Class_I := 1; bands := [inject_Z 0]; geometry := (1, 0) |};
     cluster := 0;
     cluster_frequency := value_counts_normalize [0; 0; 1] 0 |}.

Definition second_row : clustered :=
  {| row := {| LC_Class_I := 1; bands := [inject_Z 1]; geometry := (1, 1) |};
     cluster := 0;
     cluster_frequency := value_counts_normalize [0; 0; 1] 0 |}.

(** Four samples whose first feature is 0, 1, 2, 3: with four clusters
    every sample has a label of its own. *)
Definition four_samples : features :=
  [[0]; [1]; [2]; [3]]%Q.

(** Class 1 has three training points but only two random samples, fewer
    than the three clusters first asked for; class 2 has twenty samples. *)
Definition short_training : list point := Stub.points 1 3 ++ Stub.points 2 1.
Definition short_samples : list point := Stub.points 1 2 ++ Stub.points 2 20.

End FilterCases.

(** ** Further cells of the two notebooks *)

(** The plotting cells of the post-processing notebook, up to the list of
    colours handed to [ListedColormap]. *)
Module PlotCells.
Import Np.

(** [colours = {1:'green', 5:'gold', 7:'chocolate', 9:'violet', 10:'pink',
               11:'cyan', 12:'blue', 13:'gray'}] *)
Definition colours : gmap Z string :=
  list_to_map
    [(1, "green"); (5, "gold"); (7, "chocolate"); (9, "violet");
     (10, "pink"); (11, "cyan"); (12, "blue"); (13, "gray")]%string.

(** [np.unique(lc_map)]: the distinct pixel values in ascending order. *)
Definition np_unique (lc_map : array Z) : list Z :=
  merge_sort Z.le (remove_dups (concat lc_map)).

(** [[colours[k] for k in prediction_values]]; [None] is the [KeyError] of
    a value that is not a key of [colours]. *)
Definition listed_colours (lc_map : array Z) : option (list string) :=
  mapM (λ k, colours !! k) (np_unique lc_map).

End PlotCells.

(** The cell of the training-filter notebook that prepares the map handed
    to [random_sampling]. *)
Module SampleCells.
Import Np.

(** [a.where(cond, other)] *)
Definition where_ (a : array Z) (cond : array bool) (other : Z) : array Z :=
  map2 (λ v (keep : bool), if keep then v else other) a cond.

(** [l[start:stop]] for [0 <= start <= stop] *)
Definition slice {A} (start stop : Z) (l : list A) : list A :=
  take (Z.to_nat (stop - start)) (drop (Z.to_nat start) l).

(** [da=reference_map.where((reference_map!=3)&(reference_map!=255),0)] *)
Definition da (reference_map : array Z) : array Z :=
  where_ reference_map
         (and_ (ne_scalar reference_map 3) (ne_scalar reference_map 255)) 0.

(** [da[10000:15000,10000:15000]] *)
Definition sampled_window (reference_map : array Z) : array Z :=
  slice 10000 15000 <$> slice 10000 15000 (da reference_map).

End SampleCells.

Module MoreCases.
Import Np Skimage PostProc.

(** The population the majority filter takes the mode of at [(r, c)]. *)
Definition votes (image : array Z) (r c : nat) : list Z :=
  neighbourhood image (disk 2) (ne_scalar image 0) r c.

(** The tests [v <= k] and [v == k] on one pixel of an auxiliary layer. *)
Definition is_le (v : fval) (k : Q) : bool :=
  match v with Num q => Qle_bool q k | NaN => false end.

Definition is_eq (v : fval) (k : Q) : bool :=
  match v with Num q => Qeq_bool q k | NaN => false end.

(** A layer after it went through [xr_reproject] once per map, each time
    from the result for the map before. *)
Definition reprojected `{GeoServices} (d : dataset) (m : resampling)
           (maps : list data_array) : dataset :=
  foldl (λ d lc_map, xr_reproject d (da_geobox lc_map) m) d maps.

End MoreCases.

(** * Properties *)

(** ** Reading arrays built element-wise *)

Section ArrayFacts.
Import Np.

Lemma get_on_grid {A B} (a : list (list A)) (f : nat → nat → B) r c :
  get (on_grid a f) r c = (λ _, f r c) <$> get a r c.
Proof.
  unfold get, on_grid. rewrite list_lookup_imap.
  destruct (a !! r) as [row|]; simpl; [|done].
  by rewrite list_lookup_imap.
Qed.

Lemma get_map1 {A B} (f : A → B) (a : list (list A)) r c :
  get (map1 f a) r c = f <$> get a r c.
Proof.
  unfold get, map1. rewrite list_lookup_fmap.
  destruct (a !! r) as [row|]; simpl; [|done].
  by rewrite list_lookup_fmap.
Qed.

Lemma get_map2 {A B C} (f : A → B → C) (a : list (list A)) (b : list (list B)) r c :
  get (map2 f a b) r c = x ← get a r c; y ← get b r c; Some (f x y).
Proof.
  unfold get, map2. rewrite lookup_zip_with.
  destruct (a !! r) as [ra|]; simpl; [|done].
  destruct (b !! r) as [rb|]; simpl.
  - by rewrite lookup_zip_with.
  - by destruct (ra !! c).
Qed.

Lemma get_at_nat {A} (a : list (list A)) (r c : nat) :
  get_at a (Z.of_nat r) (Z.of_nat c) = get a r c.
Proof.
  unfold get_at.
  destruct (Z.ltb_spec (Z.of_nat r) 0); [lia|].
  destruct (Z.ltb_spec (Z.of_nat c) 0); [lia|].
  simpl. by rewrite !Nat2Z.id.
Qed.

Lemma get_at_Some {A} (a : list (list A)) (r c : Z) v :
  get_at a r c = Some v →
  0 ≤ r ∧ 0 ≤ c ∧ get a (Z.to_nat r) (Z.to_nat c) = Some v.
Proof.
  unfold get_at.
  destruct (Z.ltb_spec r 0); [done|].
  destruct (Z.ltb_spec c 0); [done|].
  simpl. auto.
Qed.

Lemma get_assign_where (a : list (list Z)) (mask : list (list bool)) v r c :
  get (assign_where a mask v) r c
  = old ← get a r c; m ← get mask r c; Some (if m : bool then v else old).
Proof. unfold assign_where. by rewrite get_map2. Qed.

End ArrayFacts.

(** ** The footprint, the modal kernel and the dilation *)

Section SkimageFacts.
Import Np Skimage.

Lemma elem_of_span (radius x : Z) :
  0 ≤ radius → x ∈ span radius ↔ - radius ≤ x ≤ radius.
Proof.
  intros Hr. unfold span. rewrite list_elem_of_fmap. split.
  - intros (i & -> & Hi%elem_of_seq). lia.
  - intros Hx. exists (Z.to_nat (x + radius)). split; [lia|].
    apply elem_of_seq. lia.
Qed.

(** The footprint is the Euclidean disk. *)
Lemma elem_of_disk (radius dr dc : Z) :
  0 ≤ radius →
  (dr, dc) ∈ disk radius ↔ dr * dr + dc * dc ≤ radius * radius.
Proof.
  intros Hr. unfold disk. rewrite list_elem_of_bind. split.
  - intros (x & Hin & _). apply list_elem_of_filter in Hin as [Hle _]. done.
  - intros Hle. exists dr. split.
    + apply list_elem_of_filter. split; [done|].
      apply list_elem_of_fmap. exists dc. split; [done|].
      apply elem_of_span; nia.
    + apply elem_of_span; nia.
Qed.

Lemma histo_pos (pop : list Z) (i : Z) : (0 < histo pop i)%nat → i ∈ pop.
Proof.
  unfold histo. intros Hpos.
  destruct (filter (λ v, v = i) pop) as [|v rest] eqn:E; [simpl in Hpos; lia|].
  assert (Hv : v ∈ filter (λ v, v = i) pop) by (rewrite E; left).
  apply list_elem_of_filter in Hv as [-> ?]. done.
Qed.

Lemma histo_elem (pop : list Z) (i : Z) : i ∈ pop → (0 < histo pop i)%nat.
Proof.
  unfold histo. intros Hin.
  assert (Hv : i ∈ filter (λ v, v = i) pop) by (by apply list_elem_of_filter).
  destruct (filter (λ v, v = i) pop); [by apply elem_of_nil in Hv|simpl; lia].
Qed.

(** The scan over the bins: the running maximum only grows, bounds every
    bin seen, and, once positive, is the count of the bin it names. *)
Lemma modal_scan (pop : list Z) (bins : list Z) (acc : nat * Z) :
  let res :=
    foldl (λ (acc : nat * Z) (i : Z),
             if (acc.1 <? histo pop i)%nat then (histo pop i, i) else acc)
          acc bins in
  (acc.1 ≤ res.1)%nat
  ∧ (∀ i, i ∈ bins → (histo pop i ≤ res.1)%nat)
  ∧ (res = acc ∨ ((0 < res.1)%nat ∧ histo pop res.2 = res.1)).
Proof.
  revert acc. induction bins as [|b bins IH]; intros acc; simpl.
  - split; [lia|]. split; [|by left]. intros i Hi. by apply elem_of_nil in Hi.
  - destruct (Nat.ltb_spec acc.1 (histo pop b)) as [Hlt|Hge].
    + destruct (IH (histo pop b, b)) as (Hmono & Hbound & Hres). simpl in *.
      split; [lia|]. split.
      * intros i [->|Hi]%elem_of_cons; [lia|auto].
      * right. destruct Hres as [->|Hres]; [simpl; split; [lia|done]|done].
    + destruct (IH acc) as (Hmono & Hbound & Hres).
      split; [done|]. split; [|done].
      intros i [->|Hi]%elem_of_cons; [lia|auto].
Qed.

(** The kernel returns 0 or a value that is in the population. *)
Lemma kernel_modal_cases (pop : list Z) :
  kernel_modal pop = 0 ∨ kernel_modal pop ∈ pop.
Proof.
  unfold kernel_modal. destruct pop as [|v pop]; [by left|].
  set (p := v :: pop).
  destruct (modal_scan p (Z.of_nat <$> seq 0 n_bins) (0%nat, 0))
    as (_ & _ & [->|[Hpos Heq]]); [by left|].
  right. apply histo_pos. lia.
Qed.

(** On a population of valid uint8 values the kernel returns one of them. *)
Lemma kernel_modal_elem (pop : list Z) :
  pop ≠ [] → (∀ v, v ∈ pop → 1 ≤ v ≤ 255) → kernel_modal pop ∈ pop.
Proof.
  intros Hne Hrange. unfold kernel_modal.
  destruct pop as [|v pop]; [done|]. set (p := v :: pop) in *.
  destruct (modal_scan p (Z.of_nat <$> seq 0 n_bins) (0%nat, 0))
    as (_ & Hbound & Hres).
  assert (Hv : v ∈ p) by left.
  assert (Hbin : v ∈ Z.of_nat <$> seq 0 n_bins).
  { apply list_elem_of_fmap. exists (Z.to_nat v).
    specialize (Hrange v Hv). split; [lia|].
    apply elem_of_seq. unfold n_bins. lia. }
  specialize (Hbound v Hbin). apply histo_elem in Hv.
  destruct Hres as [Hres|[Hpos Heq]].
  - rewrite Hres in Hbound. simpl in Hbound. lia.
  - apply histo_pos. lia.
Qed.

Lemma elem_of_neighbourhood image footprint mask r c v :
  v ∈ neighbourhood image footprint mask r c ↔
  ∃ d, d ∈ footprint
       ∧ get_at mask (Z.of_nat r + d.1) (Z.of_nat c + d.2) = Some true
       ∧ get_at image (Z.of_nat r + d.1) (Z.of_nat c + d.2) = Some v.
Proof.
  unfold neighbourhood. rewrite list_elem_of_omap. split.
  - intros (d & Hd & Hv). exists d. split; [done|]. simpl in Hv.
    destruct (get_at mask _ _) as [[|]|]; done.
  - intros (d & Hd & Hm & Hv). exists d. split; [done|]. simpl.
    by rewrite Hm.
Qed.

Lemma get_modal image footprint mask r c :
  get (modal image footprint mask) r c
  = (λ _, kernel_modal (neighbourhood image footprint mask r c)) <$> get image r c.
Proof. unfold modal. by rewrite get_on_grid. Qed.

Lemma get_binary_dilation (image : list (list bool)) footprint r c :
  get (binary_dilation image footprint) r c = Some true ↔
  is_Some (get image r c)
  ∧ ∃ d, d ∈ footprint
         ∧ get_at image (Z.of_nat r + d.1) (Z.of_nat c + d.2) = Some true.
Proof.
  unfold binary_dilation. rewrite get_on_grid.
  destruct (get image r c) as [x|]; simpl.
  - split.
    + intros [= Hex]. split; [by eexists|].
      apply existsb_exists in Hex as (d & Hd & Hv). exists d.
      split; [by apply list_elem_of_In|].
      destruct (get_at image _ _) as [[|]|]; done.
    + intros (_ & d & Hd & Hv). f_equal. apply existsb_exists. exists d.
      split; [by apply list_elem_of_In|]. by rewrite Hv.
  - split; [done|]. by intros ([? ?] & _).
Qed.

End SkimageFacts.

(** ** The majority filter and the reclassification rules *)

Section PostProcFacts.
Import Np Skimage PostProc Cases.

Lemma every_pixel_get {A} (p : A → bool) (a : list (list A)) r c v :
  every_pixel p a = true → get a r c = Some v → p v = true.
Proof.
  unfold every_pixel, get. intros Hall Hget.
  destruct (a !! r) as [row|] eqn:Hrow; simpl in Hget; [|done].
  rewrite forallb_forall in Hall.
  apply list_elem_of_lookup_2, list_elem_of_In, Hall in Hrow.
  rewrite forallb_forall in Hrow.
  by apply Hrow, list_elem_of_In, list_elem_of_lookup_2 with c.
Qed.

Lemma get_at_map1 {A B} (f : A → B) (a : list (list A)) r c :
  get_at (map1 f a) r c = f <$> get_at a r c.
Proof. unfold get_at. destruct (_ || _); [done|apply get_map1]. Qed.

Lemma get_assign_where_cases (a : list (list Z)) mask v r c x :
  get (assign_where a mask v) r c = Some x → x = v ∨ get a r c = Some x.
Proof.
  rewrite get_assign_where.
  destruct (get a r c) as [old|]; simpl; [|done].
  destruct (get mask r c) as [[|]|]; simpl; intros [= <-]; auto.
Qed.

(** A vote of the majority filter is a pixel of the map that is not
    no-data and lies in the radius-2 disk. *)
Lemma majority_vote (image : list (list Z)) r c v :
  v ∈ neighbourhood image (disk 2) (ne_scalar image 0) r c ↔
  v ≠ 0 ∧ ∃ dr dc, dr * dr + dc * dc ≤ 2 * 2
                   ∧ get_at image (Z.of_nat r + dr) (Z.of_nat c + dc) = Some v.
Proof.
  rewrite elem_of_neighbourhood. unfold ne_scalar. split.
  - intros ([dr dc] & Hd & Hm & Hv). simpl in *.
    rewrite get_at_map1, Hv in Hm. simpl in Hm.
    split; [|exists dr, dc; split; [by apply elem_of_disk in Hd|done]].
    intros ->. done.
  - intros (Hne & dr & dc & Hd & Hv). exists (dr, dc). simpl.
    split; [by apply elem_of_disk|]. split; [|done].
    rewrite get_at_map1, Hv. simpl. by destruct v.
Qed.

Lemma majority_filter_cases (image : list (list Z)) r c x :
  get (majority_filter image) r c = Some x →
  x = 0 ∨ ∃ r' c', get image r' c' = Some x.
Proof.
  unfold majority_filter. rewrite get_modal.
  pose proof (kernel_modal_cases
                (neighbourhood image (disk 2) (ne_scalar image 0) r c)) as Hk.
  set (pop := neighbourhood image (disk 2) (ne_scalar image 0) r c) in *.
  destruct (get image r c); simpl; [|done]. intros [= <-].
  destruct Hk as [->|Hin]; [by left|right].
  apply majority_vote in Hin as (_ & dr & dc & _ & Hv).
  apply get_at_Some in Hv as (_ & _ & Hv). eauto.
Qed.

Lemma last_snoc_refined `{GeoServices} (nb : notebook) (lc_map : data_array) :
  ∃ out, last (prediction_maps_postproc (loop_body nb lc_map)) = Some out
         ∧ prediction_maps_postproc (loop_body nb lc_map)
           = prediction_maps_postproc nb ++ [out].
Proof. eexists. split; [|reflexivity]. simpl. apply last_snoc. Qed.

End PostProcFacts.

(** ** Claims about the post-processing notebook *)

Section PostProcClaims.
Import Np Skimage PostProc Cases.

(** C10. If every pixel of the input classified raster is the no-data code
    or a code of the class dictionary, so is every pixel of the refined
    raster that the loop body produces: the majority filter returns 0 or a
    value occurring in the input, and each rule writes a dictionary code. *)
Theorem refined_raster_codes `{GeoServices} (nb : notebook) (lc_map : data_array)
        (r c : nat) (v : Z) :
  every_pixel in_class_codes (da_values lc_map) = true →
  get (refined nb lc_map) r c = Some v →
  v ∈ class_codes.
Proof.
  intros Hin Hget. unfold refined in Hget.
  destruct (last_snoc_refined nb lc_map) as (out & Hlast & Hout).
  rewrite Hlast in Hget. simpl in Hout. apply app_inj_tail in Hout as [_ <-].
  cbn [da_values] in Hget.
  assert (Hcode : ∀ k, dict_map k ∈ class_codes).
  { intros k. unfold class_codes. apply elem_of_cons. right.
    destruct k; simpl; rewrite !elem_of_cons; auto 20. }
  unfold road_rule, cropland_rule, buildings_rule, water_rule in Hget.
  apply get_assign_where_cases in Hget as [->|Hget]; [apply Hcode|].
  apply get_assign_where_cases in Hget as [->|Hget]; [apply Hcode|].
  apply get_assign_where_cases in Hget as [->|Hget]; [apply Hcode|].
  apply get_assign_where_cases in Hget as [->|Hget]; [apply Hcode|].
  apply majority_filter_cases in Hget as [->|(r' & c' & Hget)]; [left|].
  apply (every_pixel_get _ _ _ _ _ Hin) in Hget.
  by apply bool_decide_eq_true in Hget.
Qed.

Lemma refined_raster_codes_witness : 10 ∈ class_codes.
Proof.
  apply (refined_raster_codes
           (Lattice.start flat_hand no_settlement no_building [(0, 1)] [])
           (strip 0 [13; 11]) 0 1 10); reflexivity.
Defined.

(** C8, as stated, fails: on the map [[0 1] [1 1]] the no-data pixel has
    valid neighbours and the majority filter overwrites it. *)
Lemma majority_filter_overwrites_nodata :
  ¬ (∀ r c, get [[0; 1]; [1; 1]] r c = Some 0 →
            get (majority_filter [[0; 1]; [1; 1]]) r c = Some 0).
Proof.
  intros Hclaim. specialize (Hclaim 0%nat 0%nat eq_refl).
  vm_compute in Hclaim. discriminate.
Qed.

(** C2, as stated, fails: on the one-row map [13 11] with a river over the
    second pixel, that pixel is Water Body after rules 1 and 2, yet rule 3
    selects it, because the rule tests the original class. *)
Lemma cropland_rule_reads_original_class :
  let np_lc_map := [[13; 11]] in
  let current :=
    buildings_rule 1
      (water_rule (majority_filter np_lc_map) np_lc_map
                  [[Num 10; Num 10]] [[0; 1]])
      [[Num 0; Num 0]] [[Num 0; Num 0]] in
  ¬ (∀ r c, get (cropland_mask np_lc_map) r c = Some true ↔
            get (urban_buffered np_lc_map) r c = Some true
            ∧ get current r c = Some (dict_map Wetland)).
Proof.
  intros np_lc_map current Hclaim.
  destruct (Hclaim 0%nat 1%nat) as [Hsel _].
  destruct (Hsel eq_refl) as [_ Hcur].
  vm_compute in Hcur. discriminate.
Qed.

(** C2, amended. Rule 3 selects a pixel exactly when an Urban Settlement
    pixel of the original raster lies within the radius-5 disk around it
    and the pixel's class in the original raster is Wetland; a selected
    pixel becomes Annual Cropland and any other pixel keeps its value.  The
    test reads the original raster only, so a pixel that rule 2 turned into
    Urban Settlement does not count. *)
Theorem cropland_rule_pixel (np_lc_map_postproc np_lc_map : list (list Z))
        (r c : nat) (old v : Z) :
  get np_lc_map_postproc r c = Some old →
  get np_lc_map r c = Some v →
  (get (cropland_mask np_lc_map) r c = Some true ↔
   urban_within_5 np_lc_map r c ∧ v = dict_map Wetland)
  ∧ (urban_within_5 np_lc_map r c ∧ v = dict_map Wetland →
     get (cropland_rule np_lc_map_postproc np_lc_map) r c
     = Some (dict_map Annual_Cropland))
  ∧ (¬ (urban_within_5 np_lc_map r c ∧ v = dict_map Wetland) →
     get (cropland_rule np_lc_map_postproc np_lc_map) r c = Some old).
Proof.
  intros Hold Hv.
  assert (Hat : ∀ r' c',
             get_at (eq_scalar np_lc_map (dict_map Urban_Settlement)) r' c'
             = Some true
             ↔ get_at np_lc_map r' c' = Some (dict_map Urban_Settlement)).
  { intros r' c'. unfold eq_scalar. rewrite get_at_map1.
    destruct (get_at np_lc_map r' c') as [w|]; cbn [fmap option_fmap option_map];
      [|done].
    destruct (Z.eqb_spec (dict_map Urban_Settlement) w); split;
      intros ?; congruence. }
  destruct (get (urban_buffered np_lc_map) r c) as [b|] eqn:Hb; cycle 1.
  { unfold urban_buffered, binary_dilation, eq_scalar in Hb.
    rewrite get_on_grid, get_map1, Hv in Hb. done. }
  assert (Hbw : b = true ↔ urban_within_5 np_lc_map r c).
  { unfold urban_within_5. split.
    - intros ->. apply get_binary_dilation in Hb as (_ & [dr dc] & Hd & Hset).
      exists dr, dc. split; [by apply elem_of_disk in Hd|by apply Hat].
    - intros (dr & dc & Hd & Hset).
      assert (Htrue : get (urban_buffered np_lc_map) r c = Some true).
      { apply get_binary_dilation. split.
        - unfold eq_scalar. rewrite get_map1, Hv. by eexists.
        - exists (dr, dc). split; [by apply elem_of_disk|by apply Hat]. }
      congruence. }
  assert (Hmask : get (cropland_mask np_lc_map) r c
                  = Some (b && (dict_map Wetland =? v))).
  { unfold cropland_mask, and_, eq_scalar at 1.
    rewrite get_map2, !get_map1, Hb, Hv. by destruct b. }
  assert (Hsel : b && (dict_map Wetland =? v) = true
                 ↔ urban_within_5 np_lc_map r c ∧ v = dict_map Wetland).
  { rewrite andb_true_iff, Z.eqb_eq, Hbw. intuition congruence. }
  unfold cropland_rule. rewrite get_assign_where, Hold, Hmask.
  cbn [mbind option_bind].
  split; [|split].
  - rewrite <- Hsel. split; [by intros [= Heq]|intros Heq; by rewrite Heq].
  - intros Hyes%Hsel. by rewrite Hyes.
  - intros Hno. destruct (b && (dict_map Wetland =? v)) eqn:E; [|done].
    exfalso. by apply Hno, Hsel.
Qed.

Lemma cropland_rule_pixel_witness :
  (get (cropland_mask [[13; 11]]) 0 1 = Some true ↔
   urban_within_5 [[13; 11]] 0 1 ∧ 11 = dict_map Wetland)
  ∧ (urban_within_5 [[13; 11]] 0 1 ∧ 11 = dict_map Wetland →
     get (cropland_rule [[11; 12]] [[13; 11]]) 0 1
     = Some (dict_map Annual_Cropland))
  ∧ (¬ (urban_within_5 [[13; 11]] 0 1 ∧ 11 = dict_map Wetland) →
     get (cropland_rule [[11; 12]] [[13; 11]]) 0 1 = Some 12).
Proof.
  apply (cropland_rule_pixel [[11; 12]] [[13; 11]] 0 1 12 11); reflexivity.
Defined.

(** C3 fails on the code. On a Forest map of two rows and two columns
    under a settlement footprint whose foreground is 255, the demonstrated
    cells turn every pixel into Urban Settlement and the loop body leaves
    every pixel Forest: the cells test [np_wsf2019==255], the loop tests
    [np_wsf2019==1]. *)
Theorem demo_and_loop_differ_on_wsf :
  let nb := Lattice.start (level 10) (level 255) (level 0) [] [] in
  let lc_map := tile 0 [[1; 1]; [1; 1]] in
  (demo_cells nb lc_map).1 = [[13; 13]; [13; 13]]
  ∧ refined nb lc_map = [[1; 1]; [1; 1]]
  ∧ dict_map Forest = 1 ∧ dict_map Urban_Settlement = 13.
Proof. repeat split; vm_compute; reflexivity. Qed.

(** C4 fails on the code. The loop body assigns the reprojected layers to
    the globals [hand] and [wsf2019], so the map refined second is given
    layers already cut to the grid of the first map, with the fill value 0
    everywhere else.  Of two Forest maps, [west] and [east], under a
    settlement footprint of value 1, only the one refined first becomes
    Urban Settlement.  Of two maps with an isolated Water Body pixel, which
    the majority filter removes, where the height above drainage is 100 m,
    the one refined first loses the pixel and the one refined second gets
    it back from rule 1, which reads a height of 0 there.  The output for a
    map depends on its place in the list. *)
Theorem refinement_depends_on_order :
  let nb := Lattice.start (level 10) (level 1) (level 0) [] [] in
  let west := tile 0 [[1; 1]; [1; 1]] in
  let east := tile 5 [[1; 1]; [1; 1]] in
  let nb' := Lattice.start (level 100) (level 0) (level 0) [] [] in
  let west' := tile 0 [[12; 1]; [1; 1]] in
  let east' := tile 5 [[12; 1]; [1; 1]] in
  da_values <$> prediction_maps_postproc (refinement_loop nb [west; east])
  = [[[13; 13]; [13; 13]]; [[1; 1]; [1; 1]]]
  ∧ da_values <$> prediction_maps_postproc (refinement_loop nb [east; west])
    = [[[13; 13]; [13; 13]]; [[1; 1]; [1; 1]]]
  ∧ da_values <$> prediction_maps_postproc (refinement_loop nb' [west'; east'])
    = [[[1; 1]; [1; 1]]; [[12; 1]; [1; 1]]]
  ∧ da_values <$> prediction_maps_postproc (refinement_loop nb' [east'; west'])
    = [[[1; 1]; [1; 1]]; [[12; 1]; [1; 1]]]
  ∧ hand (loop_body nb west) ≠ hand nb
  ∧ wsf2019 (loop_body nb west) ≠ wsf2019 nb.
Proof.
  repeat split; try (vm_compute; reflexivity); vm_compute; discriminate.
Qed.

(** C9, as stated, fails. A building footprint layer whose cells are a
    third of a map pixel holds one building cell, at the centre of pixel
    (0, 0) of a Forest map of two rows and two columns.  Resampled with the
    nearest method the layer keeps the code 1 at that pixel, and rule 2
    would make the pixel Urban Settlement.  The loop body asks for the
    average method: the pixel reads 1/9, which the test [==1] rejects, and
    stays Forest. *)
Lemma buildings_resampled_with_average :
  let nb := Lattice.start (level 10) (level 0) centre_building [] [] in
  let lc_map := tile 0 [[1; 1]; [1; 1]] in
  to_numpy (xr_reproject (google_buildings nb) (da_geobox lc_map) nearest)
           0 0 = Num 1
  ∧ MoreCases.is_eq
      (to_numpy (xr_reproject (google_buildings nb) (da_geobox lc_map) average)
                0 0) 1 = false
  ∧ refined nb lc_map = [[1; 1]; [1; 1]]
  ∧ refined_nearest_masks nb lc_map = [[13; 1]; [1; 1]]
  ∧ refined nb lc_map ≠ refined_nearest_masks nb lc_map.
Proof.
  repeat split; try (vm_compute; reflexivity). vm_compute. discriminate.
Qed.

(** C9, amended. For every location, the demonstrated cells and the loop
    body each send three requests to [xr_reproject]: the
    elevation-above-drainage layer with the average method, the building
    footprint layer with the average method, and the settlement footprint
    layer with the nearest method. *)
Theorem resampling_requests `{GeoServices} (nb : notebook) (lc_map : data_array) :
  reprojections (loop_body nb lc_map)
  = reprojections nb
      ++ [(Hand, average); (GoogleBuildings, average); (WSF2019, nearest)]
  ∧ reprojections (demo_cells nb lc_map).2
    = reprojections nb
        ++ [(Hand, average); (GoogleBuildings, average); (WSF2019, nearest)]
  ∧ refined nb lc_map
    = let np_lc_map := da_values lc_map in
      let ds_geobox := da_geobox lc_map in
      road_rule
        (cropland_rule
           (buildings_rule 1
              (water_rule (majority_filter np_lc_map) np_lc_map
                 (on_grid np_lc_map
                    (to_numpy (xr_reproject (hand nb) ds_geobox average)))
                 (on_grid np_lc_map (xr_rasterize (river_network nb) ds_geobox)))
              (on_grid np_lc_map
                 (to_numpy (xr_reproject (google_buildings nb) ds_geobox average)))
              (on_grid np_lc_map
                 (to_numpy (xr_reproject (wsf2019 nb) ds_geobox nearest))))
           np_lc_map)
        (on_grid np_lc_map (xr_rasterize (road_network nb) ds_geobox)).
Proof.
  repeat split. unfold refined.
  destruct (last_snoc_refined nb lc_map) as (out & Hlast & Hout).
  rewrite Hlast. simpl in Hout. by apply app_inj_tail in Hout as [_ <-].
Qed.

End PostProcClaims.

(** ** The search for the number of clusters *)

Section SearchFacts.
Import FilterTD.
Context `{Sklearn}.

Lemma range_nil (lo hi : Z) : hi ≤ lo → range lo hi = [].
Proof. intros Hle. unfold range. by replace (Z.to_nat (hi - lo)) with 0%nat by lia. Qed.

Lemma range_cons (lo hi : Z) : lo < hi → range lo hi = lo :: range (lo + 1) hi.
Proof.
  intros Hlt. unfold range.
  replace (Z.to_nat (hi - lo)) with (S (Z.to_nat (hi - (lo + 1)))) by lia.
  cbn [seq fmap list_fmap]. f_equal; [lia|].
  rewrite <- fmap_S_seq, <- list_fmap_compose.
  apply list_fmap_ext. intros _ i _. simpl. lia.
Qed.

Lemma Qlt_bool_iff (a b : Q) : Qlt_bool a b = true ↔ (a < b)%Q.
Proof.
  unfold Qlt_bool. rewrite negb_true_iff, <- not_true_iff_false, Qle_bool_iff.
  split; [apply Qnot_le_lt|apply Qlt_not_le].
Qed.

End SearchFacts.

Section SearchClaims.
Import FilterTD FilterCases.
Context `{Sklearn}.

Lemma try_cluster_known (data : features) (s : search) (n : Z)
      (mdl : Z → kmeans) (lab : Z → list Z) (score : Z → Q) :
  KMeans_fit n 1 data = Ok (mdl n) →
  predict (mdl n) data = Ok (lab n) →
  calinski_harabasz_score data (lab n) = Ok (score n) →
  try_cluster data s n
  = if Qeq_bool (highest_score s) (-999) || Qlt_bool (highest_score s) (score n)
    then Ok (settled_on mdl lab score n) else Ok s.
Proof.
  intros Hfit Hpred Hscore. unfold try_cluster.
  rewrite Hfit. cbn [mbind result_bind]. rewrite Hpred. cbn [mbind result_bind].
  rewrite Hscore. reflexivity.
Qed.

(** Once a first candidate is held, the loop keeps the earliest candidate
    of the highest score among those seen. *)
Lemma search_continues (data : features) (lo : Z)
      (mdl : Z → kmeans) (lab : Z → list Z) (score : Z → Q) (rest : nat) :
  ∀ a k,
    (∀ n, a ≤ n < a + Z.of_nat rest →
          KMeans_fit n 1 data = Ok (mdl n)
          ∧ predict (mdl n) data = Ok (lab n)
          ∧ calinski_harabasz_score data (lab n) = Ok (score n)
          ∧ ¬ (score n == -999)%Q) →
    lo ≤ k < a →
    ¬ (score k == -999)%Q →
    (∀ n, lo ≤ n < a → (score n <= score k)%Q) →
    (∀ n, lo ≤ n < k → (score n < score k)%Q) →
    ∃ k', lo ≤ k' < a + Z.of_nat rest
          ∧ for_each (try_cluster data) (settled_on mdl lab score k)
                     (range a (a + Z.of_nat rest))
            = Ok (settled_on mdl lab score k')
          ∧ (∀ n, lo ≤ n < a + Z.of_nat rest → (score n <= score k')%Q)
          ∧ (∀ n, lo ≤ n < k' → (score n < score k')%Q).
Proof.
  induction rest as [|rest IH]; intros a k Hlib Hk Hsent Hmax Hfirst.
  - exists k. rewrite range_nil by lia.
    split; [lia|]. split; [done|]. split; [|done].
    intros n Hn. apply Hmax. lia.
  - rewrite range_cons by lia.
    replace (a + Z.of_nat (S rest)) with (a + 1 + Z.of_nat rest) in * by lia.
    destruct (Hlib a) as (Hfit & Hpred & Hscore & Hsa); [lia|].
    cbn [for_each].
    rewrite (try_cluster_known data _ a mdl lab score Hfit Hpred Hscore).
    cbn [settled_on highest_score].
    assert (Hne : Qeq_bool (score k) (-999) = false).
    { apply not_true_iff_false. by rewrite Qeq_bool_iff. }
    rewrite Hne. cbn [orb].
    destruct (Qlt_bool (score k) (score a)) eqn:Hcmp; cbn [mbind result_bind].
    + apply Qlt_bool_iff in Hcmp.
      apply (IH (a + 1) a); [intros n Hn; apply Hlib; lia|lia|done| |].
      * intros n Hn. destruct (decide (n = a)) as [->|Hna]; [apply Qle_refl|].
        apply Qle_trans with (score k); [apply Hmax; lia|by apply Qlt_le_weak].
      * intros n Hn. apply Qle_lt_trans with (score k); [apply Hmax; lia|done].
    + apply not_true_iff_false in Hcmp. rewrite Qlt_bool_iff in Hcmp.
      apply Qnot_lt_le in Hcmp.
      apply (IH (a + 1) k); [intros n Hn; apply Hlib; lia|lia|done| |done].
      intros n Hn. destruct (decide (n = a)) as [->|Hna]; [done|].
      apply Hmax. lia.
Qed.

(** C1. On a non-empty range, when scikit-learn fits and scores every
    candidate count (with [random_state=1]) and no score is the value -999
    (a Calinski-Harabasz index is not negative), [find_clusters_KMeans]
    returns a count [k] of the range with the model fitted for [k]; no
    candidate scores higher than [k], and every smaller candidate scores
    strictly lower: among equal scores the smallest count is returned. *)
Theorem find_clusters_KMeans_best (data : features) (min_cluster max_cluster : Z)
        (mdl : Z → kmeans) (lab : Z → list Z) (score : Z → Q) :
  min_cluster < max_cluster →
  (∀ n, min_cluster ≤ n < max_cluster →
        KMeans_fit n 1 data = Ok (mdl n)
        ∧ predict (mdl n) data = Ok (lab n)
        ∧ calinski_harabasz_score data (lab n) = Ok (score n)
        ∧ ¬ (score n == -999)%Q) →
  ∃ k, min_cluster ≤ k < max_cluster
       ∧ find_clusters_KMeans data min_cluster max_cluster
         = Ok (k, Some (mdl k), Some (lab k))
       ∧ (∀ n, min_cluster ≤ n < max_cluster → (score n <= score k)%Q)
       ∧ (∀ n, min_cluster ≤ n < k → (score n < score k)%Q).
Proof.
  intros Hrange Hlib. unfold find_clusters_KMeans.
  rewrite range_cons by done. cbn [for_each].
  destruct (Hlib min_cluster) as (Hfit & Hpred & Hscore & Hsent); [lia|].
  rewrite (try_cluster_known data _ min_cluster mdl lab score Hfit Hpred Hscore).
  cbn [highest_score]. replace (Qeq_bool (-999) (-999)) with true by reflexivity.
  cbn [orb mbind result_bind].
  destruct (search_continues data min_cluster mdl lab score
              (Z.to_nat (max_cluster - (min_cluster + 1)))
              (min_cluster + 1) min_cluster)
    as (k & Hk & Hrun & Hmax & Hfirst).
  - intros n Hn. apply Hlib. lia.
  - lia.
  - done.
  - intros n Hn. replace n with min_cluster by lia. apply Qle_refl.
  - intros n Hn. lia.
  - replace (min_cluster + 1 + Z.of_nat (Z.to_nat (max_cluster - (min_cluster + 1))))
      with max_cluster in * by lia.
    exists k. split; [lia|]. split; [|done].
    rewrite Hrun. reflexivity.
Qed.

Lemma try_cluster_scored (data : features) (lo n : Z) (s s' : search) :
  lo ≤ n →
  try_cluster data s n = Ok s' →
  scored data lo (n + 1) s'
  ∨ (s' = s ∧ Qeq_bool (highest_score s) (-999) = false).
Proof.
  intros Hn. unfold try_cluster.
  destruct (KMeans_fit n 1 data) as [model|] eqn:Hfit; [|done].
  cbn [mbind result_bind].
  destruct (predict model data) as [labels|] eqn:Hpred; [|done].
  cbn [mbind result_bind].
  destruct (calinski_harabasz_score data labels) as [sc|] eqn:Hscore; [|done].
  cbn [mbind result_bind].
  destruct (Qeq_bool (highest_score s) (-999)) eqn:Hsent; cbn [orb].
  - intros [= <-]. left. split; [simpl; lia|]. exists model, labels. by simpl.
  - destruct (Qlt_bool (highest_score s) sc); intros [= <-].
    + left. split; [simpl; lia|]. exists model, labels. by simpl.
    + by right.
Qed.

Lemma scored_mono (data : features) (lo a b : Z) (s : search) :
  a ≤ b → scored data lo a s → scored data lo b s.
Proof. intros Hab [Hk Hrest]. split; [lia|done]. Qed.

Lemma for_each_scored (data : features) (lo : Z) (rest : nat) :
  ∀ a s s',
    lo ≤ a →
    scored data lo a s →
    for_each (try_cluster data) s (range a (a + Z.of_nat rest)) = Ok s' →
    scored data lo (a + Z.of_nat rest) s'.
Proof.
  induction rest as [|rest IH]; intros a s s' Ha Hs.
  - rewrite range_nil by lia. intros [= <-]. apply scored_mono with a; [lia|done].
  - rewrite range_cons by lia.
    replace (a + Z.of_nat (S rest)) with (a + 1 + Z.of_nat rest) by lia.
    cbn [for_each].
    destruct (try_cluster data s a) as [s1|] eqn:Hstep; [|done].
    cbn [mbind result_bind].
    apply IH; [lia|].
    destruct (try_cluster_scored data lo a s s1 Ha Hstep) as [Hs1|[-> _]];
      [done|apply scored_mono with a; [lia|done]].
Qed.

(** C7, as stated, fails: on the empty range [3, 3) the function raises
    nothing; it returns the count 3, outside the range, with no model. *)
Lemma find_clusters_KMeans_empty_range_returns :
  find_clusters_KMeans (H := Stub.sklearn) six_samples 3 3 = Ok (3, None, None)
  ∧ ¬ (3 ≤ 3 < 3).
Proof. split; [reflexivity|lia]. Qed.

(** C7, amended. On a degenerate range [find_clusters_KMeans] raises no
    error: it returns [min_cluster] with no model and no labels, no score
    having been computed.  On a non-empty range, whenever it returns, the
    returned count lies in the range and comes with the model, labels and
    score computed for it. *)
Theorem find_clusters_KMeans_range (data : features) (min_cluster max_cluster : Z) :
  (max_cluster ≤ min_cluster →
   find_clusters_KMeans data min_cluster max_cluster = Ok (min_cluster, None, None))
  ∧ (∀ k m l,
       min_cluster < max_cluster →
       find_clusters_KMeans data min_cluster max_cluster = Ok (k, m, l) →
       min_cluster ≤ k < max_cluster
       ∧ ∃ mdl lab sc,
           m = Some mdl ∧ l = Some lab
           ∧ KMeans_fit k 1 data = Ok mdl
           ∧ predict mdl data = Ok lab
           ∧ calinski_harabasz_score data lab = Ok sc).
Proof.
  split.
  - intros Hle. unfold find_clusters_KMeans. by rewrite range_nil.
  - intros k m l Hlt. unfold find_clusters_KMeans.
    rewrite range_cons by done. cbn [for_each].
    destruct (try_cluster data _ min_cluster) as [s1|] eqn:Hstep; [|done].
    cbn [mbind result_bind].
    destruct (for_each (try_cluster data) s1 (range (min_cluster + 1) max_cluster))
      as [s2|] eqn:Hrun; [|done].
    cbn [mbind result_bind]. intros [= ? ? ?]; subst k m l.
    assert (Hs1 : scored data min_cluster (min_cluster + 1) s1).
    { destruct (try_cluster_scored data min_cluster min_cluster _ s1
                  ltac:(lia) Hstep) as [Hs1|[_ Hsent]]; [done|].
      simpl in Hsent. discriminate. }
    replace max_cluster
      with (min_cluster + 1 + Z.of_nat (Z.to_nat (max_cluster - (min_cluster + 1))))
      in Hrun by lia.
    apply (for_each_scored data min_cluster) in Hrun; [|lia|done].
    destruct Hrun as (Hk & mdl & lab & Hm & Hl & Hfit & Hpred & Hscore).
    split; [lia|]. by exists mdl, lab, (highest_score s2).
Qed.

End SearchClaims.

Section SearchWitnesses.
Import FilterTD FilterCases Stub.

Lemma find_clusters_KMeans_best_witness :
  ∃ k, 3 ≤ k < 6
       ∧ find_clusters_KMeans (H := Stub.sklearn) six_samples 3 6
         = Ok (k, Some k, Some (six_labels k))
       ∧ (∀ n, 3 ≤ n < 6 → (six_scores n <= six_scores k)%Q)
       ∧ (∀ n, 3 ≤ n < k → (six_scores n < six_scores k)%Q).
Proof.
  apply (find_clusters_KMeans_best (H := Stub.sklearn) six_samples 3 6
           (λ n, n) six_labels six_scores).
  - lia.
  - intros n Hn.
    assert (Hcases : n = 3 ∨ n = 4 ∨ n = 5) by lia.
    destruct Hcases as [-> | [-> | ->]];
      (split; [reflexivity|]); (split; [reflexivity|]); (split; [reflexivity|]);
      vm_compute; discriminate.
Defined.

Lemma find_clusters_KMeans_range_witness :
  find_clusters_KMeans (H := Stub.sklearn) six_samples 3 3 = Ok (3, None, None)
  ∧ (3 ≤ 4 < 6
     ∧ ∃ (mdl : @kmeans Stub.sklearn) lab sc,
         Some 4 = Some mdl ∧ Some (six_labels 4) = Some lab
         ∧ KMeans_fit 4 1 six_samples = Ok mdl
         ∧ predict mdl six_samples = Ok lab
         ∧ calinski_harabasz_score six_samples lab = Ok sc).
Proof.
  split.
  - apply (proj1 (find_clusters_KMeans_range (H := Stub.sklearn) six_samples 3 3)).
    lia.
  - apply (proj2 (find_clusters_KMeans_range (H := Stub.sklearn) six_samples 3 6)
                 4 (Some 4) (Some (six_labels 4))).
    + lia.
    + reflexivity.
Defined.

End SearchWitnesses.

(** ** The cluster-frequency filter and the loop over the classes *)

Section FilterClaims.
Import FilterTD FilterCases Stub.

Lemma with_clusters_labels (td : list point) (labels : list Z)
      (rows : list clustered) :
  with_clusters td labels = Ok rows →
  cluster <$> rows = labels
  ∧ ∀ p, p ∈ rows →
         cluster_frequency p = value_counts_normalize labels (cluster p).
Proof.
  unfold with_clusters. destruct (decide _) as [Hlen|]; [|done].
  intros [= <-]. generalize (value_counts_normalize labels). intros g.
  revert td Hlen. induction labels as [|l labels IH]; intros [|p td] Hlen;
    simpl in Hlen; try lia.
  - split; [done|]. intros p Hp. by apply elem_of_nil in Hp.
  - destruct (IH td ltac:(lia)) as [Hfmap Hfreq]. cbn [zip_with]. split.
    + rewrite fmap_cons. cbn [cluster]. by rewrite Hfmap.
    + intros q [->|Hq]%elem_of_cons; [done|auto].
Qed.

Lemma length_filter_cluster (rows : list clustered) (l : Z) :
  length (filter (λ x, x = l) (cluster <$> rows))
  = length (filter (λ q, cluster q = l) rows).
Proof.
  induction rows as [|q rows IH]; [done|].
  rewrite fmap_cons, !filter_cons.
  destruct (decide (cluster q = l)); simpl; by rewrite IH.
Qed.

(** C6. A training point of the class is kept exactly when the share of
    its cluster, the number of points of the class in that cluster divided
    by the number of points of the class, is at least the threshold.  The
    threshold of the notebook is 0.05, and the comparison is inclusive: of
    200 points with 10 in a cluster of share exactly 0.05, all 200 are kept
    under 0.05 and 190 under 0.051. *)
Theorem filter_by_frequency_keeps :
  (∀ (threshold : Q) (td : list point) (labels : list Z)
     (rows : list clustered) (p : clustered),
     with_clusters td labels = Ok rows →
     (p ∈ filter_by_frequency threshold rows ↔
      p ∈ rows
      ∧ (threshold
         <= inject_Z (Z.of_nat (length (filter (λ q, cluster q = cluster p) rows)))
            / inject_Z (Z.of_nat (length rows)))%Q))
  ∧ (∀ (S : Sklearn) (training_features rand_samples_features : list point)
       (i : Z) (kept : list clustered),
       filter_class training_features rand_samples_features i = Ok kept →
       ∃ labels rows,
         with_clusters (of_class training_features i) labels = Ok rows
         ∧ kept = filter_by_frequency frequency_threshold rows)
  ∧ (frequency_threshold == 5 # 100)%Q
  ∧ ∃ rows, with_clusters boundary_points boundary_labels = Ok rows
            ∧ length (filter_by_frequency frequency_threshold rows) = 200%nat
            ∧ length (filter_by_frequency 0.051 rows) = 190%nat.
Proof.
  split; [|split; [|split]].
  - intros threshold td labels rows p Hrows.
    destruct (with_clusters_labels td labels rows Hrows) as [Hlabels Hfreq].
    unfold filter_by_frequency. rewrite list_elem_of_filter, Qle_bool_iff.
    assert (Hshare : ∀ q, q ∈ rows →
              cluster_frequency q
              = (inject_Z (Z.of_nat (length (filter (λ q', cluster q' = cluster q) rows)))
                 / inject_Z (Z.of_nat (length rows)))%Q).
    { intros q Hq. rewrite (Hfreq q Hq). unfold value_counts_normalize.
      by rewrite <- Hlabels, length_filter_cluster, length_fmap. }
    split.
    + intros [Hle Hin]. split; [done|]. by rewrite <- (Hshare p Hin).
    + intros [Hin Hle]. split; [|done]. by rewrite (Hshare p Hin).
  - intros S training_features rand_samples_features i kept.
    unfold filter_class.
    destruct (StandardScaler_fit _) as [sc|]; [|done]. cbn [mbind result_bind].
    destruct (transform sc (iloc_features (of_class rand_samples_features i)))
      as [standardized|]; [|done]. cbn [mbind result_bind].
    destruct (find_clusters_KMeans standardized 3 20) as [found|]; [|done].
    cbn [mbind result_bind].
    destruct (transform sc (iloc_features (of_class training_features i)))
      as [model_input|]; [|done]. cbn [mbind result_bind].
    destruct (match found.1.2 with
              | Some model => predict model model_input
              | None => Raise AttributeError
              end) as [labels|]; [|done]. cbn [mbind result_bind].
    destruct (with_clusters (of_class training_features i) labels)
      as [rows|] eqn:Hrows; [|done]. cbn [mbind result_bind].
    intros [= <-]. by exists labels, rows.
  - reflexivity.
  - eexists. split; [reflexivity|]. split; vm_compute; reflexivity.
Qed.

Lemma filter_by_frequency_keeps_witness :
  lone_row ∈ filter_by_frequency 0.05 [lone_row] ↔
  lone_row ∈ [lone_row]
  ∧ (0.05
     <= inject_Z (Z.of_nat (length (filter (λ q, cluster q = cluster lone_row)
                                           [lone_row])))
        / inject_Z (Z.of_nat (length [lone_row])))%Q.
Proof.
  apply (proj1 filter_by_frequency_keeps 0.05%Q (points 1 1) [0]). reflexivity.
Defined.

Lemma filtering_loop_raise `{Sklearn} (training_features rand_samples_features : list point)
      (i : Z) (e : exn) (after : list Z) :
  filter_class training_features rand_samples_features i = Raise e →
  ∀ (before : list Z) acc,
    (∀ j, j ∈ before →
          ∃ kept, filter_class training_features rand_samples_features j = Ok kept) →
    filtering_loop training_features rand_samples_features
                   (before ++ i :: after) acc = Raise e.
Proof.
  intros Hfail. unfold filtering_loop.
  induction before as [|j before IH]; intros acc Hok; cbn [app for_each].
  - by rewrite Hfail.
  - destruct (Hok j) as [kept Hkept]; [left|].
    rewrite Hkept. cbn [mbind result_bind]. apply IH.
    intros j' Hj'. apply Hok. by right.
Qed.

(** C5, as stated, fails: class 1 has too few samples for three clusters
    and scikit-learn raises; the loop has no handler, so the cell ends with
    that exception and yields no filtered table at all, although class 2
    on its own filters without error. *)
Lemma insufficient_class_ends_the_loop :
  find_clusters_KMeans (iloc_features (of_class short_samples 1)) 3 20
  = Raise ValueError
  ∧ (∃ kept, filter_class short_training short_samples 2 = Ok kept)
  ∧ ¬ (∃ out, filter_training_data short_training short_samples = Ok out).
Proof.
  split; [reflexivity|]. split.
  - eexists. vm_compute. reflexivity.
  - intros [out Hout]. vm_compute in Hout. discriminate.
Qed.

(** C5, amended. The loop over the class labels has no error handling:
    when the search for the number of clusters raises on the standardised
    samples of a class (as it does when scikit-learn cannot fit the
    requested numbers of clusters to them) and the classes before it were
    filtered, the body raises and the loop ends with that exception.  No
    class is skipped or kept unfiltered, no filtered table results, and the
    classes after it are not processed. *)
Theorem filtering_loop_stops_at_failure `{Sklearn}
        (training_features rand_samples_features : list point)
        (before after : list Z) (i : Z) (e : exn)
        (sc : scaler) (standardized : features)
        (acc : option (list clustered)) :
  (∀ j, j ∈ before →
        ∃ kept, filter_class training_features rand_samples_features j = Ok kept) →
  StandardScaler_fit (iloc_features (of_class rand_samples_features i)) = Ok sc →
  transform sc (iloc_features (of_class rand_samples_features i)) = Ok standardized →
  find_clusters_KMeans standardized 3 20 = Raise e →
  filter_class training_features rand_samples_features i = Raise e
  ∧ filtering_loop training_features rand_samples_features
                   (before ++ i :: after) acc = Raise e.
Proof.
  intros Hok Hfit Htransform Hsearch.
  assert (Hfail : filter_class training_features rand_samples_features i = Raise e).
  { unfold filter_class. rewrite Hfit. cbn [mbind result_bind].
    rewrite Htransform. cbn [mbind result_bind]. by rewrite Hsearch. }
  split; [done|]. by apply filtering_loop_raise.
Qed.

Lemma filtering_loop_stops_at_failure_witness :
  filter_class short_training short_samples 1 = Raise ValueError
  ∧ filtering_loop short_training short_samples ([] ++ 1 :: [2]) None
    = Raise ValueError.
Proof.
  apply (filtering_loop_stops_at_failure (H := Stub.sklearn)
           short_training short_samples [] [2] 1
           ValueError tt (iloc_features (of_class short_samples 1)) None).
  - intros j Hj. by apply elem_of_nil in Hj.
  - reflexivity.
  - reflexivity.
  - reflexivity.
Defined.

End FilterClaims.

(** ** More on the post-processing notebook *)

Section PostProcMore.
Import Np Skimage PostProc Cases MoreCases.

Lemma on_grid_ext {A B} (a : list (list A)) (f g : nat → nat → B) :
  (∀ r c, is_Some (get a r c) → f r c = g r c) → on_grid a f = on_grid a g.
Proof.
  intros Hfg. unfold on_grid. apply imap_ext. intros r row Hrow.
  apply imap_ext. intros c x Hx. apply Hfg.
  unfold get. rewrite Hrow. simpl. by rewrite Hx.
Qed.

Lemma map1_on_grid {A B C} (h : B → C) (a : list (list A)) (f : nat → nat → B) :
  map1 h (on_grid a f) = on_grid a (λ r c, h (f r c)).
Proof.
  unfold map1, on_grid. rewrite fmap_imap. apply imap_ext. intros r row _.
  simpl. by rewrite fmap_imap.
Qed.

(** Whether rule 3 selects a pixel of the map. *)
Lemma get_cropland_mask (np_lc_map : list (list Z)) (r c : nat) (v : Z) :
  get np_lc_map r c = Some v →
  ∃ near : bool,
    (near = true ↔ urban_within_5 np_lc_map r c)
    ∧ get (cropland_mask np_lc_map) r c
      = Some (near && (dict_map Wetland =? v)).
Proof.
  intros Hv.
  assert (Hat : ∀ r' c',
             get_at (eq_scalar np_lc_map (dict_map Urban_Settlement)) r' c'
             = Some true
             ↔ get_at np_lc_map r' c' = Some (dict_map Urban_Settlement)).
  { intros r' c'. unfold eq_scalar. rewrite get_at_map1.
    destruct (get_at np_lc_map r' c') as [w|]; cbn [fmap option_fmap option_map];
      [|done].
    destruct (Z.eqb_spec (dict_map Urban_Settlement) w); split;
      intros ?; congruence. }
  destruct (get (urban_buffered np_lc_map) r c) as [b|] eqn:Hb; cycle 1.
  { unfold urban_buffered, binary_dilation, eq_scalar in Hb.
    rewrite get_on_grid, get_map1, Hv in Hb. done. }
  exists b. split.
  - unfold urban_within_5. split.
    + intros ->. apply get_binary_dilation in Hb as (_ & [dr dc] & Hd & Hset).
      exists dr, dc. split; [by apply elem_of_disk in Hd|by apply Hat].
    + intros (dr & dc & Hd & Hset).
      assert (Htrue : get (urban_buffered np_lc_map) r c = Some true).
      { apply get_binary_dilation. split.
        - unfold eq_scalar. rewrite get_map1, Hv. by eexists.
        - exists (dr, dc). split; [by apply elem_of_disk|by apply Hat]. }
      congruence.
  - unfold cropland_mask, and_, eq_scalar at 1.
    rewrite get_map2, !get_map1, Hb, Hv. by destruct b.
Qed.

(** The value of a pixel after the loop body, given what rule 3 selects. *)
Lemma refined_value `{GeoServices} (nb : notebook) (lc_map : data_array)
      (r c : nat) (v : Z) (selected : bool) :
  get (da_values lc_map) r c = Some v →
  get (cropland_mask (da_values lc_map)) r c = Some selected →
  get (refined nb lc_map) r c
  = Some
      (let g := da_geobox lc_map in
       if xr_rasterize (road_network nb) g r c =? 1
       then dict_map Urban_Settlement
       else if selected
       then dict_map Annual_Cropland
       else if is_eq (to_numpy (xr_reproject (google_buildings nb) g average) r c) 1
               || is_eq (to_numpy (xr_reproject (wsf2019 nb) g nearest) r c) 1
       then dict_map Urban_Settlement
       else if (dict_map Water_Body =? v)
               && is_le (to_numpy (xr_reproject (hand nb) g average) r c) 45
               || (xr_rasterize (river_network nb) g r c =? 1)
       then dict_map Water_Body
       else kernel_modal (votes (da_values lc_map) r c)).
Proof.
  intros Hv Hmask. unfold refined.
  destruct (last_snoc_refined nb lc_map) as (out & Hlast & Hout).
  rewrite Hlast. simpl in Hout. apply app_inj_tail in Hout as [_ <-].
  cbn [da_values].
  unfold road_rule, cropland_rule, buildings_rule, water_rule, majority_filter.
  rewrite !get_assign_where, Hmask, get_modal.
  unfold or_, and_, eq_scalar, le_scalar, feq_scalar.
  rewrite !get_map2, !get_map1, !get_on_grid, Hv.
  cbn [fmap option_fmap option_map mbind option_bind].
  unfold votes, is_eq, is_le.
  rewrite (Z.eqb_sym 1 (xr_rasterize (road_network nb) _ r c)).
  rewrite (Z.eqb_sym 1 (xr_rasterize (river_network nb) _ r c)).
  repeat match goal with |- context [if ?b then _ else _] => destruct b end;
    reflexivity.
Qed.

(** X1. The refined value of a pixel, rule by rule in order of priority:
    a road makes it Urban Settlement; otherwise an original Wetland pixel
    near an original Urban Settlement pixel becomes Annual Cropland, even
    under a building or settlement footprint; otherwise a footprint makes
    it Urban Settlement; otherwise the water rule makes it Water Body;
    otherwise it keeps the value of the majority filter. *)
Theorem refined_pixel `{GeoServices} (nb : notebook) (lc_map : data_array)
        (r c : nat) (v : Z) :
  get (da_values lc_map) r c = Some v →
  ∃ near : bool,
    (near = true ↔ urban_within_5 (da_values lc_map) r c)
    ∧ get (refined nb lc_map) r c
      = Some
          (let g := da_geobox lc_map in
           if xr_rasterize (road_network nb) g r c =? 1
           then dict_map Urban_Settlement
           else if near && (dict_map Wetland =? v)
           then dict_map Annual_Cropland
           else if is_eq (to_numpy (xr_reproject (google_buildings nb) g average) r c) 1
                   || is_eq (to_numpy (xr_reproject (wsf2019 nb) g nearest) r c) 1
           then dict_map Urban_Settlement
           else if (dict_map Water_Body =? v)
                   && is_le (to_numpy (xr_reproject (hand nb) g average) r c) 45
                   || (xr_rasterize (river_network nb) g r c =? 1)
           then dict_map Water_Body
           else kernel_modal (votes (da_values lc_map) r c)).
Proof.
  intros Hv. destruct (get_cropland_mask _ r c v Hv) as (near & Hnear & Hmask).
  exists near. split; [done|].
  by rewrite (refined_value nb lc_map r c v _ Hv Hmask).
Qed.

Lemma refined_pixel_witness :
  is_Some (get (refined (Lattice.start flat_hand no_settlement no_building [(0, 1)] [])
                        (strip 0 [13; 11])) 0 1).
Proof.
  destruct (refined_pixel
              (Lattice.start flat_hand no_settlement no_building [(0, 1)] [])
              (strip 0 [13; 11]) 0 1 11 eq_refl) as (near & _ & Hget).
  rewrite Hget. by eexists.
Defined.

(** X2. The refined raster has the grid of the input raster: a pixel
    exists in the output exactly where it exists in the input. *)
Theorem refined_same_grid `{GeoServices} (nb : notebook) (lc_map : data_array)
        (r c : nat) :
  is_Some (get (refined nb lc_map) r c) ↔ is_Some (get (da_values lc_map) r c).
Proof.
  split.
  - unfold refined.
    destruct (last_snoc_refined nb lc_map) as (out & Hlast & Hout).
    rewrite Hlast. simpl in Hout. apply app_inj_tail in Hout as [_ <-].
    cbn [da_values].
    unfold road_rule, cropland_rule, buildings_rule, water_rule, majority_filter.
    rewrite !get_assign_where, get_modal.
    destruct (get (da_values lc_map) r c); [by eexists|].
    cbn [fmap option_fmap option_map mbind option_bind]. by intros [? ?].
  - intros [v Hv]. destruct (get_cropland_mask _ r c v Hv) as (near & _ & Hmask).
    rewrite (refined_value nb lc_map r c v _ Hv Hmask).
    by eexists.
Qed.

(** The bin the scan settles on is the first of the bins with the largest
    count, when the bins are scanned in ascending order. *)
Lemma modal_scan_least (pop : list Z) (n : nat) :
  ∀ (a : nat) (acc : nat * Z),
    acc.2 ≤ Z.of_nat a →
    let res :=
      foldl (λ (acc : nat * Z) (i : Z),
               if (acc.1 <? histo pop i)%nat then (histo pop i, i) else acc)
            acc (Z.of_nat <$> seq a n) in
    (res.1 = acc.1 → res = acc)
    ∧ (∀ i, i ∈ Z.of_nat <$> seq a n → histo pop i = res.1 → res.2 ≤ i).
Proof.
  induction n as [|n IH]; intros a acc Hacc; cbn [seq fmap list_fmap foldl].
  - split; [done|]. intros i Hi. by apply elem_of_nil in Hi.
  - destruct (Nat.ltb_spec acc.1 (histo pop (Z.of_nat a))) as [Hlt|Hge].
    + destruct (IH (S a) (histo pop (Z.of_nat a), Z.of_nat a)) as [Hsame Hleast];
        [simpl; lia|].
      destruct (modal_scan pop (Z.of_nat <$> seq (S a) n)
                           (histo pop (Z.of_nat a), Z.of_nat a)) as (Hmono & _ & _).
      simpl in *. split; [lia|].
      intros i [-> | Hi]%elem_of_cons Hcount; [|by apply Hleast].
      rewrite Hsame by done. done.
    + destruct (IH (S a) acc) as [Hsame Hleast]; [lia|].
      destruct (modal_scan pop (Z.of_nat <$> seq (S a) n) acc) as (Hmono & _ & _).
      split; [done|].
      intros i [-> | Hi]%elem_of_cons Hcount; [|by apply Hleast].
      rewrite Hsame by lia. done.
Qed.

(** The modal kernel on valid uint8 values: the result is the most frequent
    value, the smallest one among equally frequent values. *)
Lemma kernel_modal_mode (pop : list Z) :
  pop ≠ [] → (∀ v, v ∈ pop → 1 ≤ v ≤ 255) →
  kernel_modal pop ∈ pop
  ∧ ∀ w, (histo pop w ≤ histo pop (kernel_modal pop))%nat
         ∧ (histo pop w = histo pop (kernel_modal pop) → w ∈ pop →
            kernel_modal pop ≤ w).
Proof.
  intros Hne Hrange.
  pose proof (kernel_modal_elem pop Hne Hrange) as Helem. split; [done|].
  revert Helem. unfold kernel_modal.
  destruct pop as [|v pop]; [done|]. set (p := v :: pop) in *.
  destruct (modal_scan p (Z.of_nat <$> seq 0 n_bins) (0%nat, 0))
    as (_ & Hbound & Hres).
  destruct (modal_scan_least p n_bins 0 (0%nat, 0) ltac:(simpl; lia))
    as (_ & Hleast).
  set (res := foldl _ _ _) in *. intros Helem w.
  assert (Hcount : histo p res.2 = res.1).
  { destruct Hres as [Hres|[_ Heq]]; [|done].
    rewrite Hres in Helem. cbn [snd] in Helem.
    specialize (Hrange 0 Helem). lia. }
  assert (Hbin : w ∈ p → w ∈ Z.of_nat <$> seq 0 n_bins).
  { intros Hw. apply list_elem_of_fmap. exists (Z.to_nat w).
    specialize (Hrange w Hw). split; [lia|].
    apply elem_of_seq. unfold n_bins. lia. }
  split.
  - destruct (decide (w ∈ p)) as [Hw|Hw].
    + rewrite Hcount. by apply Hbound, Hbin.
    + destruct (histo p w) eqn:E; [lia|].
      exfalso. apply Hw, histo_pos. lia.
  - intros Heq Hw. apply Hleast; [by apply Hbin|]. by rewrite Heq.
Qed.

(** At a valid pixel of a uint8 map the population is not empty and holds
    valid values only. *)
Lemma majority_filter_valid (image : list (list Z)) (r c : nat) (v : Z) :
  every_pixel is_uint8 image = true →
  get image r c = Some v →
  v ≠ 0 →
  votes image r c ≠ [] ∧ ∀ w, w ∈ votes image r c → 1 ≤ w ≤ 255.
Proof.
  intros Huint8 Hv Hne.
  assert (Hself : v ∈ votes image r c).
  { apply majority_vote. split; [done|]. exists 0, 0. split; [lia|].
    by rewrite !Z.add_0_r, get_at_nat. }
  split.
  - intros Hnil. rewrite Hnil in Hself. by apply elem_of_nil in Hself.
  - intros w (Hw & dr & dc & _ & Hw')%majority_vote.
    apply get_at_Some in Hw' as (_ & _ & Hw').
    apply (every_pixel_get _ _ _ _ _ Huint8) in Hw'.
    unfold is_uint8 in Hw'. lia.
Qed.

(** X3. On a uint8 map, the majority filter gives a valid pixel the most
    frequent value among the valid pixels of its radius-2 disk, and the
    smallest such value when several are equally frequent; the value is
    that of a valid pixel within the disk, never no-data. *)
Theorem majority_filter_mode (image : list (list Z)) (r c : nat) (v : Z) :
  every_pixel is_uint8 image = true →
  get image r c = Some v →
  v ≠ 0 →
  ∃ m, get (majority_filter image) r c = Some m
       ∧ m ≠ 0
       ∧ (∃ dr dc, dr * dr + dc * dc ≤ 2 * 2
                   ∧ get_at image (Z.of_nat r + dr) (Z.of_nat c + dc) = Some m)
       ∧ ∀ w, (histo (votes image r c) w ≤ histo (votes image r c) m)%nat
              ∧ (histo (votes image r c) w = histo (votes image r c) m →
                 w ∈ votes image r c → m ≤ w).
Proof.
  intros Huint8 Hv Hne.
  destruct (majority_filter_valid image r c v Huint8 Hv Hne) as (Hnil & Hrange).
  destruct (kernel_modal_mode _ Hnil Hrange) as [Helem Hmode].
  exists (kernel_modal (votes image r c)).
  split; [unfold majority_filter; by rewrite get_modal, Hv|].
  apply majority_vote in Helem as (Hm & dr & dc & Hd & Hget).
  split; [done|]. split; [by exists dr, dc|done].
Qed.

Lemma majority_filter_mode_witness :
  ∃ m, get (majority_filter [[13; 11]]) 0 0 = Some m ∧ m ≠ 0.
Proof.
  destruct (majority_filter_mode [[13; 11]] 0 0 13) as (m & Hget & Hm & _);
    [reflexivity|reflexivity|lia|].
  by exists m.
Defined.

(** X4. On a uint8 map, a valid pixel whose radius-2 disk holds no other
    valid value than its own keeps its value: the majority filter changes
    nothing inside a uniform region. *)
Theorem majority_filter_uniform (image : list (list Z)) (r c : nat) (v : Z) :
  every_pixel is_uint8 image = true →
  get image r c = Some v →
  v ≠ 0 →
  (∀ dr dc w, dr * dr + dc * dc ≤ 2 * 2 →
              get_at image (Z.of_nat r + dr) (Z.of_nat c + dc) = Some w →
              w = 0 ∨ w = v) →
  get (majority_filter image) r c = Some v.
Proof.
  intros Huint8 Hv Hne Huniform.
  destruct (majority_filter_valid image r c v Huint8 Hv Hne)
    as (Hnil & Hrange).
  destruct (kernel_modal_mode _ Hnil Hrange) as [Helem _].
  unfold majority_filter. rewrite get_modal, Hv.
  apply majority_vote in Helem as (Hm & dr & dc & Hd & Hat).
  cbn [fmap option_fmap option_map]. f_equal.
  destruct (Huniform dr dc _ Hd Hat) as [?| ?]; done.
Qed.

Lemma majority_filter_uniform_witness :
  get (majority_filter [[7; 0; 7]]) 0 0 = Some 7.
Proof.
  apply (majority_filter_uniform [[7; 0; 7]] 0 0 7); [reflexivity|reflexivity|lia|].
  intros dr dc w Hd Hat.
  apply get_at_Some in Hat as (Hr & Hc & Hget).
  assert (Hdr : dr = 0 ∨ dr = 1 ∨ dr = 2) by nia.
  assert (Hdc : dc = 0 ∨ dc = 1 ∨ dc = 2) by nia.
  destruct Hdr as [-> | [-> | ->]], Hdc as [-> | [-> | ->]];
    vm_compute in Hget; try discriminate; injection Hget as <-; lia.
Defined.

Lemma loop_body_fold `{GeoServices} (maps : list data_array) :
  ∀ nb : notebook,
    let nb' := foldl loop_body nb maps in
    hand nb' = reprojected (hand nb) average maps
    ∧ wsf2019 nb' = reprojected (wsf2019 nb) nearest maps
    ∧ google_buildings nb' = google_buildings nb
    ∧ river_network nb' = river_network nb
    ∧ road_network nb' = road_network nb
    ∧ ∃ outs, prediction_maps_postproc nb' = prediction_maps_postproc nb ++ outs
              ∧ da_geobox <$> outs = da_geobox <$> maps.
Proof.
  induction maps as [|m maps IH]; intros nb; cbn [foldl].
  - repeat split. exists []. by rewrite app_nil_r.
  - destruct (IH (loop_body nb m)) as (Hh & Hw & Hg & Hri & Hro & outs & Hout & Hgeo).
    cbn zeta in *. rewrite Hh, Hw, Hg, Hri, Hro. repeat split.
    eexists (_ :: outs). rewrite Hout. cbn [loop_body prediction_maps_postproc].
    rewrite <- app_assoc. split; [reflexivity|].
    rewrite !fmap_cons, Hgeo. reflexivity.
Qed.

(** X5. What the loop over the maps does to the layers: [hand] and
    [wsf2019] are replaced, map after map, by their reprojection onto the
    grid of the map, each time starting from the result for the map before;
    the building layer and the river and road networks stay as loaded. *)
Theorem refinement_loop_layers `{GeoServices} (nb : notebook)
        (maps : list data_array) :
  hand (refinement_loop nb maps) = reprojected (hand nb) average maps
  ∧ wsf2019 (refinement_loop nb maps) = reprojected (wsf2019 nb) nearest maps
  ∧ google_buildings (refinement_loop nb maps) = google_buildings nb
  ∧ river_network (refinement_loop nb maps) = river_network nb
  ∧ road_network (refinement_loop nb maps) = road_network nb.
Proof.
  unfold refinement_loop.
  destruct (loop_body_fold maps
              {| hand := hand nb; wsf2019 := wsf2019 nb;
                 google_buildings := google_buildings nb;
                 river_network := river_network nb;
                 road_network := road_network nb;
                 prediction_maps_postproc := [];
                 reprojections := reprojections nb |})
    as (Hh & Hw & Hg & Hri & Hro & _).
  done.
Qed.

Lemma refinement_loop_length `{GeoServices} (nb : notebook)
      (maps : list data_array) :
  length (prediction_maps_postproc (refinement_loop nb maps)) = length maps.
Proof.
  unfold refinement_loop.
  destruct (loop_body_fold maps
              {| hand := hand nb; wsf2019 := wsf2019 nb;
                 google_buildings := google_buildings nb;
                 river_network := river_network nb;
                 road_network := road_network nb;
                 prediction_maps_postproc := [];
                 reprojections := reprojections nb |})
    as (_ & _ & _ & _ & _ & outs & Hout & Hgeo).
  cbn zeta in Hout. rewrite Hout. cbn [prediction_maps_postproc app].
  by rewrite <- (length_fmap da_geobox), Hgeo, length_fmap.
Qed.

(** X6. The loop yields one refined map per input map, in the order of the
    input list and each on the grid of its input map. *)
Theorem refinement_loop_grids `{GeoServices} (nb : notebook)
        (maps : list data_array) :
  da_geobox <$> prediction_maps_postproc (refinement_loop nb maps)
  = da_geobox <$> maps.
Proof.
  unfold refinement_loop.
  destruct (loop_body_fold maps
              {| hand := hand nb; wsf2019 := wsf2019 nb;
                 google_buildings := google_buildings nb;
                 river_network := river_network nb;
                 road_network := road_network nb;
                 prediction_maps_postproc := [];
                 reprojections := reprojections nb |})
    as (_ & _ & _ & _ & _ & outs & Hout & Hgeo).
  cbn zeta in Hout. rewrite Hout. done.
Qed.

(** The loop body reads the layers of the notebook state, not the maps
    refined so far. *)
Lemma loop_body_outputs `{GeoServices} (nb : notebook) (lc_map : data_array) :
  prediction_maps_postproc (loop_body nb lc_map)
  = prediction_maps_postproc nb
      ++ [{| da_geobox := da_geobox lc_map; da_values := refined nb lc_map |}].
Proof.
  unfold refined.
  destruct (last_snoc_refined nb lc_map) as (out & Hlast & Hout).
  rewrite Hlast. simpl in Hout. apply app_inj_tail in Hout as [_ <-].
  reflexivity.
Qed.

(** X7. The map at any place of the list is refined by the loop body in
    the state the maps before it have left, whatever maps follow: the
    output for the list [before ++ lc_map :: after] holds, at the place of
    [lc_map], the raster [refined] computes from the state after [before]. *)
Theorem refinement_loop_at `{GeoServices} (nb : notebook)
        (before after : list data_array) (lc_map : data_array) :
  prediction_maps_postproc (refinement_loop nb (before ++ lc_map :: after))
    !! length before
  = Some {| da_geobox := da_geobox lc_map;
            da_values := refined (refinement_loop nb before) lc_map |}.
Proof.
  assert (Hlen : length (prediction_maps_postproc (refinement_loop nb before))
                 = length before).
  { apply refinement_loop_length. }
  unfold refinement_loop at 1. rewrite foldl_app. cbn [foldl].
  fold (refinement_loop nb before). set (mid := refinement_loop nb before) in *.
  destruct (loop_body_fold after (loop_body mid lc_map))
    as (_ & _ & _ & _ & _ & outs & Hout & _).
  cbn zeta in Hout. rewrite Hout, loop_body_outputs.
  rewrite <- app_assoc, lookup_app_r by lia.
  by rewrite Hlen, Nat.sub_diag.
Qed.

(** X8. The demonstrated cells and the loop body refine a map to the same
    raster whenever no pixel of the reprojected settlement footprint tells
    the two literals apart, that is, no pixel equals 255 or 1 (or each
    test gives the same answer at every pixel of the map). *)
Theorem demo_matches_loop `{GeoServices} (nb : notebook) (lc_map : data_array) :
  (∀ r c, is_Some (get (da_values lc_map) r c) →
          let w := to_numpy (xr_reproject (wsf2019 nb) (da_geobox lc_map) nearest) r c in
          is_eq w 255 = is_eq w 1) →
  (demo_cells nb lc_map).1 = refined nb lc_map.
Proof.
  intros Hsame. unfold refined.
  destruct (last_snoc_refined nb lc_map) as (out & Hlast & Hout).
  rewrite Hlast. simpl in Hout. apply app_inj_tail in Hout as [_ <-].
  cbn [da_values demo_cells fst].
  unfold buildings_rule, feq_scalar. rewrite !map1_on_grid.
  rewrite (on_grid_ext (da_values lc_map)
             (λ r c, match to_numpy (xr_reproject (wsf2019 nb) (da_geobox lc_map) nearest) r c with
                     | Num q => Qeq_bool q 255
                     | NaN => false
                     end)
             (λ r c, match to_numpy (xr_reproject (wsf2019 nb) (da_geobox lc_map) nearest) r c with
                     | Num q => Qeq_bool q 1
                     | NaN => false
                     end)); [reflexivity|].
  intros r c Hin. apply (Hsame r c Hin).
Qed.

Lemma demo_matches_loop_witness :
  (demo_cells (Lattice.start flat_hand no_settlement no_building [] [])
              (strip 0 [1])).1
  = refined (Lattice.start flat_hand no_settlement no_building [] []) (strip 0 [1]).
Proof.
  apply (demo_matches_loop
           (Lattice.start flat_hand no_settlement no_building [] []) (strip 0 [1])).
  intros [|r] [|c]; simpl; try (by intros [? ?]); reflexivity.
Defined.

Lemma every_pixel_intro {A} (p : A → bool) (a : list (list A)) :
  (∀ r c v, get a r c = Some v → p v = true) → every_pixel p a = true.
Proof.
  intros Hall. unfold every_pixel. apply forallb_forall.
  intros row [r Hrow]%list_elem_of_In%list_elem_of_lookup.
  apply forallb_forall. intros v [c Hv]%list_elem_of_In%list_elem_of_lookup.
  apply (Hall r c). unfold get. rewrite Hrow. simpl. done.
Qed.

Lemma elem_of_np_unique (lc_map : list (list Z)) (v : Z) :
  v ∈ PlotCells.np_unique lc_map ↔ ∃ r c, get lc_map r c = Some v.
Proof.
  unfold PlotCells.np_unique.
  rewrite merge_sort_Permutation, elem_of_remove_dups, list_elem_of_In, in_concat.
  split.
  - intros (row & [r Hrow]%list_elem_of_In%list_elem_of_lookup
                & [c Hv]%list_elem_of_In%list_elem_of_lookup).
    exists r, c. unfold get. rewrite Hrow. simpl. done.
  - intros (r & c & Hget). unfold get in Hget.
    destruct (lc_map !! r) as [row|] eqn:Hrow; simpl in Hget; [|done].
    exists row. split; apply list_elem_of_In; by eapply list_elem_of_lookup_2.
Qed.

Lemma colours_keys (v : Z) :
  is_Some (PlotCells.colours !! v) ↔ ∃ k, dict_map k = v.
Proof.
  split.
  - intros [colour Hcolour]. unfold PlotCells.colours in Hcolour.
    apply elem_of_list_to_map_2 in Hcolour.
    rewrite !elem_of_cons in Hcolour.
    destruct Hcolour as [Hc|[Hc|[Hc|[Hc|[Hc|[Hc|[Hc|[Hc|Hc]]]]]]]];
      try (by apply elem_of_nil in Hc); injection Hc as -> _.
    + by exists Forest.
    + by exists Grassland.
    + by exists Shrubland.
    + by exists Perennial_Cropland.
    + by exists Annual_Cropland.
    + by exists Wetland.
    + by exists Water_Body.
    + by exists Urban_Settlement.
  - intros [k <-]. destruct k; vm_compute; by eexists.
Qed.

Lemma listed_colours_is_Some (lc_map : list (list Z)) :
  is_Some (PlotCells.listed_colours lc_map) ↔
  ∀ r c v, get lc_map r c = Some v → ∃ k, dict_map k = v.
Proof.
  unfold PlotCells.listed_colours.
  rewrite mapM_is_Some, Forall_forall. split.
  - intros Hall r c v Hget. apply colours_keys, Hall, elem_of_np_unique. eauto.
  - intros Hall v (r & c & Hget)%elem_of_np_unique.
    apply colours_keys. eauto.
Qed.

(** X9. The list of colours of a plotting cell is built exactly when every
    pixel value of the map it is built from is a value of [dict_map]; on a
    map with a pixel of any other value, no-data 0 included, the lookup
    [colours[k]] ends in KeyError. *)
Theorem listed_colours_defined (lc_map : list (list Z)) :
  (is_Some (PlotCells.listed_colours lc_map) ↔
   ∀ r c v, get lc_map r c = Some v → ∃ k, dict_map k = v)
  ∧ ((∃ r c, get lc_map r c = Some 0) → PlotCells.listed_colours lc_map = None).
Proof.
  split; [apply listed_colours_is_Some|].
  intros (r & c & Hzero).
  destruct (PlotCells.listed_colours lc_map) as [names|] eqn:Hnames; [|done].
  assert (Hsome : is_Some (PlotCells.listed_colours lc_map)) by (by rewrite Hnames).
  rewrite listed_colours_is_Some in Hsome.
  destruct (Hsome r c 0 Hzero) as [k Hk]. by destruct k.
Qed.

Lemma listed_colours_defined_witness :
  PlotCells.listed_colours [[13; 0]] = None.
Proof.
  apply (proj2 (listed_colours_defined [[13; 0]])). by exists 0%nat, 1%nat.
Defined.

(** X10. If every pixel of a map is a value of [dict_map] (the map has no
    no-data pixel), so is every pixel after the majority filter and every
    pixel of the refined raster: the colour lists of the later plotting
    cells are built without KeyError. *)
Theorem classes_stay_plottable `{GeoServices} (nb : notebook) (lc_map : data_array) :
  (∀ r c v, get (da_values lc_map) r c = Some v → ∃ k, dict_map k = v) →
  is_Some (PlotCells.listed_colours (majority_filter (da_values lc_map)))
  ∧ is_Some (PlotCells.listed_colours (refined nb lc_map)).
Proof.
  intros Hcodes.
  assert (Huint8 : every_pixel is_uint8 (da_values lc_map) = true).
  { apply every_pixel_intro. intros r c v Hv.
    destruct (Hcodes r c v Hv) as [k <-]. by destruct k. }
  assert (Hmode : ∀ r c v, get (da_values lc_map) r c = Some v →
                           ∃ k, dict_map k = kernel_modal (votes (da_values lc_map) r c)).
  { intros r c v Hv.
    assert (Hne : v ≠ 0) by (destruct (Hcodes r c v Hv) as [k <-]; by destruct k).
    destruct (majority_filter_valid _ r c v Huint8 Hv Hne) as (Hnil & Hrange).
    pose proof (kernel_modal_elem _ Hnil Hrange) as Helem.
    apply majority_vote in Helem as (_ & dr & dc & _ & Hat).
    apply get_at_Some in Hat as (_ & _ & Hat). eauto. }
  split; apply listed_colours_is_Some; intros r c w Hw.
  - unfold majority_filter in Hw. rewrite get_modal in Hw.
    destruct (get (da_values lc_map) r c) as [v|] eqn:Hv; [|done].
    destruct (Hmode r c v Hv) as [k Hk]. exists k. rewrite Hk. unfold votes.
    cbn [fmap option_fmap option_map] in Hw. congruence.
  - assert (Hin : is_Some (get (da_values lc_map) r c)).
    { destruct (get (da_values lc_map) r c) as [v|] eqn:Hv; [by eexists|].
      exfalso. unfold refined in Hw.
      destruct (last_snoc_refined nb lc_map) as (out & Hlast & Hout).
      rewrite Hlast in Hw. simpl in Hout. apply app_inj_tail in Hout as [_ <-].
      cbn [da_values] in Hw.
      unfold road_rule, cropland_rule, buildings_rule, water_rule, majority_filter in Hw.
      rewrite !get_assign_where, get_modal, Hv in Hw. done. }
    destruct Hin as [v Hv].
    destruct (get_cropland_mask _ r c v Hv) as (near & _ & Hmask).
    pose proof (refined_value nb lc_map r c v _ Hv Hmask) as Hget.
    rewrite Hget in Hw. destruct (Hmode r c v Hv) as [k Hk].
    cbn zeta in Hw.
    repeat match type of Hw with context [if ?b then _ else _] => destruct b end;
      try (eexists; apply (inj Some); etransitivity; [|exact Hw]; reflexivity).
    exists k. rewrite Hk. congruence.
Qed.

Lemma classes_stay_plottable_witness :
  is_Some (PlotCells.listed_colours (majority_filter [[13; 11]]))
  ∧ is_Some (PlotCells.listed_colours
               (refined (Lattice.start flat_hand no_settlement no_building [(0, 1)] [])
                        (strip 0 [13; 11]))).
Proof.
  apply (classes_stay_plottable
           (Lattice.start flat_hand no_settlement no_building [(0, 1)] [])
           (strip 0 [13; 11])).
  intros [|r] [|[|c]] v; simpl; intros [= <-];
    [by exists Urban_Settlement|by exists Wetland].
Defined.

End PostProcMore.

(** ** No-data pixels and the majority filter *)

Section NoDataVotes.
Import Np Skimage PostProc Cases.

(** The votes for a valid value are the cells of the footprint that hold
    it. *)
Lemma histo_neighbourhood (image : list (list Z)) (fp : list (Z * Z))
      (r c : nat) (w : Z) :
  w ≠ 0 →
  histo (neighbourhood image fp (ne_scalar image 0) r c) w
  = length (filter (λ d : Z * Z,
                      get_at image (Z.of_nat r + d.1) (Z.of_nat c + d.2) = Some w)
                   fp).
Proof.
  intros Hw. unfold histo, neighbourhood.
  assert (Hcons : ∀ (f : Z * Z → option Z) x l,
             omap f (x :: l)
             = match f x with Some y => y :: omap f l | None => omap f l end)
    by done.
  induction fp as [|d fp IH]; [done|].
  rewrite filter_cons, Hcons. unfold ne_scalar at 1.
  rewrite get_at_map1.
  destruct (get_at image (Z.of_nat r + d.1) (Z.of_nat c + d.2)) as [v|] eqn:Hv;
    cbn [fmap option_fmap option_map].
  - destruct (Z.eqb_spec 0 v) as [<-|Hv0]; cbn [negb].
    + rewrite decide_False by congruence. exact IH.
    + rewrite filter_cons. destruct (decide (v = w)) as [->|Hvw].
      * rewrite decide_True by done. cbn [length]. by rewrite IH.
      * rewrite decide_False by congruence. exact IH.
  - rewrite decide_False by done. exact IH.
Qed.

(** C8, amended. On a uint8 map, no-data pixels never contribute a vote:
    at every pixel, valid or not, the filter gives 0 exactly when no valid
    pixel lies within the radius-2 disk, and otherwise gives the valid
    value that most cells of the disk hold, the smallest one among equally
    frequent values, however many cells of the disk hold no-data.  So a
    no-data pixel is left unchanged exactly when no valid pixel lies within
    its disk, and is otherwise overwritten with the majority of its valid
    neighbours. *)
Theorem majority_filter_nodata (image : list (list Z)) (r c : nat) (v : Z) :
  every_pixel is_uint8 image = true →
  get image r c = Some v →
  (get (majority_filter image) r c = Some 0 ↔ ¬ valid_within_2 image r c)
  ∧ ∀ m, get (majority_filter image) r c = Some m → m ≠ 0 →
         (0 < occurrences image r c m)%nat
         ∧ ∀ w, w ≠ 0 →
                (occurrences image r c w ≤ occurrences image r c m)%nat
                ∧ (occurrences image r c w = occurrences image r c m →
                   m ≤ w).
Proof.
  intros Huint8 Hget. unfold majority_filter. rewrite get_modal, Hget.
  assert (Hocc : ∀ w, w ≠ 0 →
             histo (neighbourhood image (disk 2) (ne_scalar image 0) r c) w
             = occurrences image r c w)
    by (intros w Hw; by apply histo_neighbourhood).
  set (pop := neighbourhood image (disk 2) (ne_scalar image 0) r c) in *.
  cbn [fmap option_fmap option_map].
  assert (Hvote : ∀ w, w ∈ pop → w ≠ 0 ∧ 1 ≤ w ≤ 255 ∧ valid_within_2 image r c).
  { intros w (Hw & dr & dc & Hd & Hw')%majority_vote.
    split; [done|]. split; [|by exists dr, dc, w].
    apply get_at_Some in Hw' as (_ & _ & Hw').
    apply (every_pixel_get _ _ _ _ _ Huint8) in Hw'.
    unfold is_uint8 in Hw'. lia. }
  destruct (decide (pop = [])) as [Hnil|Hne].
  - rewrite Hnil. cbn [kernel_modal]. split.
    + split; [|done]. intros _ (dr & dc & w & Hd & Hw & Hw0).
      assert (Hin : w ∈ pop) by (apply majority_vote; eauto).
      rewrite Hnil in Hin. by apply elem_of_nil in Hin.
    + intros m [= <-] Hm. done.
  - destruct (kernel_modal_mode pop Hne) as (Hin & Hmode).
    { intros w Hw. by apply Hvote in Hw as (_ & ? & _). }
    destruct (Hvote _ Hin) as (Hk0 & _ & Hvalid). split.
    + split; [intros [= Hzero]; done|intros Hnone; done].
    + intros m [= <-] _. split.
      * rewrite <- Hocc by done. by apply histo_elem.
      * intros w Hw. rewrite <- !Hocc by done.
        destruct (Hmode w) as [Hle Htie]. split; [done|].
        intros Heq. apply Htie; [done|].
        apply histo_pos. rewrite Heq. by apply histo_elem.
Qed.

Lemma majority_filter_nodata_witness :
  let image := [[0; 1]; [1; 1]] in
  (get (majority_filter image) 0 0 = Some 0 ↔ ¬ valid_within_2 image 0 0)
  ∧ ∀ m, get (majority_filter image) 0 0 = Some m → m ≠ 0 →
         (0 < occurrences image 0 0 m)%nat
         ∧ ∀ w, w ≠ 0 →
                (occurrences image 0 0 w ≤ occurrences image 0 0 m)%nat
                ∧ (occurrences image 0 0 w = occurrences image 0 0 m → m ≤ w).
Proof.
  apply (majority_filter_nodata [[0; 1]; [1; 1]] 0 0 0); reflexivity.
Defined.

End NoDataVotes.

(** ** More on the training-data filter notebook *)

Section FilterMore.
Import FilterTD FilterCases.
Context `{Sklearn}.

Lemma range_app (lo n hi : Z) :
  lo ≤ n < hi → range lo hi = range lo n ++ n :: range (n + 1) hi.
Proof.
  intros Hn.
  assert (Hgen : ∀ k : nat, ∀ lo, n = lo + Z.of_nat k →
                   range lo hi = range lo n ++ n :: range (n + 1) hi).
  { induction k as [|k IH]; intros lo' Hlo.
    - replace lo' with n by lia. rewrite (range_nil n n) by lia.
      apply range_cons. lia.
    - rewrite (range_cons lo' hi), (range_cons lo' n) by lia.
      cbn [app]. f_equal. apply IH. lia. }
  apply (Hgen (Z.to_nat (n - lo))). lia.
Qed.

Lemma for_each_app {S A} (body : S → A → result S) (s : S) (xs ys : list A) :
  for_each body s (xs ++ ys) = s' ← for_each body s xs; for_each body s' ys.
Proof.
  revert s. induction xs as [|x xs IH]; intros s; cbn [app for_each]; [done|].
  destruct (body s x); cbn [mbind result_bind]; [apply IH|done].
Qed.

(** Candidates that scikit-learn fits and scores never end the search. *)
Lemma for_each_try_cluster_Ok (data : features) (lo : Z) (k : nat) :
  ∀ s,
    (∀ m, lo ≤ m < lo + Z.of_nat k →
          ∃ mdl lab sc, KMeans_fit m 1 data = Ok mdl
                        ∧ predict mdl data = Ok lab
                        ∧ calinski_harabasz_score data lab = Ok sc) →
    ∃ s', for_each (try_cluster data) s (range lo (lo + Z.of_nat k)) = Ok s'.
Proof.
  revert lo. induction k as [|k IH]; intros lo s Hlib.
  - rewrite range_nil by lia. by eexists.
  - rewrite range_cons by lia.
    replace (lo + Z.of_nat (S k)) with (lo + 1 + Z.of_nat k) in * by lia.
    destruct (Hlib lo) as (mdl & lab & sc & Hfit & Hpred & Hscore); [lia|].
    cbn [for_each].
    rewrite (try_cluster_known data s lo (λ _, mdl) (λ _, lab) (λ _, sc)
               Hfit Hpred Hscore).
    destruct (_ || _); cbn [mbind result_bind];
      apply IH; intros m Hm; apply Hlib; lia.
Qed.

(** X11. [find_clusters_KMeans] ends with the first exception of the range:
    when fitting the model, predicting the labels or computing the score
    raises for some candidate count [n], the function raises that
    exception, also when smaller counts were fitted and scored before. *)
Theorem find_clusters_KMeans_raises (data : features)
        (min_cluster max_cluster n : Z) (e : exn) :
  min_cluster ≤ n < max_cluster →
  (∀ m, min_cluster ≤ m < n →
        ∃ mdl lab sc, KMeans_fit m 1 data = Ok mdl
                      ∧ predict mdl data = Ok lab
                      ∧ calinski_harabasz_score data lab = Ok sc) →
  (KMeans_fit n 1 data = Raise e
   ∨ (∃ mdl, KMeans_fit n 1 data = Ok mdl ∧ predict mdl data = Raise e)
   ∨ (∃ mdl lab, KMeans_fit n 1 data = Ok mdl
                 ∧ predict mdl data = Ok lab
                 ∧ calinski_harabasz_score data lab = Raise e)) →
  find_clusters_KMeans data min_cluster max_cluster = Raise e.
Proof.
  intros Hn Hlib Hfail. unfold find_clusters_KMeans.
  rewrite (range_app min_cluster n max_cluster) by done.
  rewrite for_each_app.
  destruct (for_each_try_cluster_Ok data min_cluster (Z.to_nat (n - min_cluster))
              {| highest_score := -999; n_cluster_optimal := min_cluster;
                 kmeans_model_optimal := None; labels_optimal := None |})
    as [s' Hs'].
  { intros m Hm. apply Hlib. lia. }
  replace (min_cluster + Z.of_nat (Z.to_nat (n - min_cluster))) with n in Hs' by lia.
  rewrite Hs'. cbn [mbind result_bind for_each].
  unfold try_cluster.
  destruct Hfail as [Hfit | [(mdl & Hfit & Hpred) | (mdl & lab & Hfit & Hpred & Hsc)]];
    rewrite Hfit; cbn [mbind result_bind]; [done| |].
  - by rewrite Hpred.
  - rewrite Hpred. cbn [mbind result_bind]. by rewrite Hsc.
Qed.

Lemma filter_class_inv (training_features rand_samples_features : list point)
      (i : Z) (kept : list clustered) :
  filter_class training_features rand_samples_features i = Ok kept →
  ∃ sc standardized found model model_input labels rows,
    StandardScaler_fit (iloc_features (of_class rand_samples_features i)) = Ok sc
    ∧ transform sc (iloc_features (of_class rand_samples_features i)) = Ok standardized
    ∧ find_clusters_KMeans standardized 3 20 = Ok found
    ∧ found.1.2 = Some model
    ∧ transform sc (iloc_features (of_class training_features i)) = Ok model_input
    ∧ predict model model_input = Ok labels
    ∧ with_clusters (of_class training_features i) labels = Ok rows
    ∧ kept = filter_by_frequency frequency_threshold rows.
Proof.
  unfold filter_class.
  destruct (StandardScaler_fit _) as [sc|] eqn:Hsc; [|done].
  cbn [mbind result_bind].
  destruct (transform sc (iloc_features (of_class rand_samples_features i)))
    as [standardized|] eqn:Hstd; [|done]. cbn [mbind result_bind].
  destruct (find_clusters_KMeans standardized 3 20) as [found|] eqn:Hfound; [|done].
  cbn [mbind result_bind].
  destruct (transform sc (iloc_features (of_class training_features i)))
    as [model_input|] eqn:Hinput; [|done]. cbn [mbind result_bind].
  destruct (found.1.2) as [model|] eqn:Hmodel; [|done].
  destruct (predict model model_input) as [labels|] eqn:Hlabels; [|done].
  cbn [mbind result_bind].
  destruct (with_clusters (of_class training_features i) labels)
    as [rows|] eqn:Hrows; [|done]. cbn [mbind result_bind].
  intros [= <-]. by exists sc, standardized, found, model, model_input, labels, rows.
Qed.

Lemma with_clusters_rows (td : list point) (labels : list Z)
      (rows : list clustered) :
  with_clusters td labels = Ok rows → row <$> rows = td.
Proof.
  unfold with_clusters. destruct (decide _) as [Hlen|]; [|done].
  intros [= <-]. generalize (value_counts_normalize labels). intros g.
  revert td Hlen. induction labels as [|l labels IH]; intros [|p td] Hlen;
    simpl in Hlen; try lia; [done|].
  cbn [zip_with]. rewrite fmap_cons. cbn [row]. by rewrite IH by lia.
Qed.

Lemma fmap_filter_sublist {A B} (f : A → B) (P : A → Prop)
      `{!∀ x, Decision (P x)} (l : list A) :
  f <$> filter P l `sublist_of` f <$> l.
Proof.
  induction l as [|x l IH]; [done|].
  rewrite filter_cons. destruct (decide (P x)); rewrite ?fmap_cons;
    by constructor.
Qed.

Lemma filter_class_sublist
      (training_features rand_samples_features : list point)
      (i : Z) (kept : list clustered) :
  filter_class training_features rand_samples_features i = Ok kept →
  row <$> kept `sublist_of` of_class training_features i.
Proof.
  intros (sc & standardized & found & model & model_input & labels & rows
          & _ & _ & _ & _ & _ & _ & Hrows & ->)%filter_class_inv.
  apply with_clusters_rows in Hrows.
  rewrite <- Hrows. apply fmap_filter_sublist.
Qed.

(** X12. What the loop body keeps of a class are training points of that
    class, in their original order: the filter drops rows, it never adds,
    reorders or relabels one. *)
Theorem filter_class_keeps_points
        (training_features rand_samples_features : list point)
        (i : Z) (kept : list clustered) :
  filter_class training_features rand_samples_features i = Ok kept →
  row <$> kept `sublist_of` of_class training_features i
  ∧ (∀ p, p ∈ kept → row p ∈ training_features ∧ LC_Class_I (row p) = i)
  ∧ (length kept ≤ length (of_class training_features i))%nat.
Proof.
  intros Hsub%filter_class_sublist.
  split; [done|]. split.
  - intros p Hp.
    assert (Hin : row p ∈ of_class training_features i).
    { eapply elem_of_sublist; [|exact Hsub]. by apply list_elem_of_fmap_2. }
    apply list_elem_of_filter in Hin as [? ?]. done.
  - apply sublist_length in Hsub. by rewrite length_fmap in Hsub.
Qed.

Lemma unique_spec (labels : list Z) :
  NoDup (unique labels) ∧ ∀ x, x ∈ unique labels ↔ x ∈ labels.
Proof.
  induction labels as [|l labels [IHnodup IHin]]; cbn [unique].
  - split; [constructor|done].
  - split.
    + apply NoDup_cons. split; [|by apply NoDup_filter].
      intros [Hne _]%list_elem_of_filter. done.
    + intros x. rewrite !elem_of_cons, list_elem_of_filter, IHin.
      destruct (decide (x = l)); tauto.
Qed.

Lemma foldl_append_filtered_Some (kepts : list (list clustered)) :
  ∀ acc, foldl append_filtered (Some acc) kepts = Some (acc ++ concat kepts).
Proof.
  induction kepts as [|k kepts IH]; intros acc; cbn [foldl concat append_filtered].
  - by rewrite app_nil_r.
  - by rewrite IH, app_assoc.
Qed.

Lemma foldl_append_filtered_None (kepts : list (list clustered)) :
  foldl append_filtered None kepts
  = match kepts with [] => None | _ => Some (concat kepts) end.
Proof.
  destruct kepts as [|k kepts]; [done|].
  cbn [foldl append_filtered]. by rewrite foldl_append_filtered_Some.
Qed.

Lemma filtering_loop_Ok (training_features rand_samples_features : list point)
      (lc_classes : list Z) :
  ∀ acc res,
    filtering_loop training_features rand_samples_features lc_classes acc = Ok res ↔
    ∃ kepts,
      Forall2 (λ i kept,
                 filter_class training_features rand_samples_features i = Ok kept)
              lc_classes kepts
      ∧ res = foldl append_filtered acc kepts.
Proof.
  unfold filtering_loop.
  induction lc_classes as [|i lc_classes IH]; intros acc res; cbn [for_each].
  - split.
    + intros [= <-]. exists []. split; [constructor|done].
    + intros (kepts & Hall & ->). by inv Hall.
  - split.
    + destruct (filter_class training_features rand_samples_features i)
        as [kept|] eqn:Hkept; [|done].
      cbn [mbind result_bind]. intros (kepts & Hall & ->)%IH.
      exists (kept :: kepts). split; [by constructor|done].
    + intros (kepts & Hall & ->). inv Hall.
      match goal with Hk : filter_class _ _ i = Ok _ |- _ => rewrite Hk end.
      cbn [mbind result_bind foldl]. apply IH. eauto.
Qed.

(** X13. The loop runs the body once for each distinct class label of the
    training table, in order of first appearance, and the filtered table is
    the per-class tables put one after the other in that order; it ends
    without exception exactly when the body does for every class.  With no
    training point there is no class and the result stays [None]. *)
Theorem filter_training_data_concat
        (training_features rand_samples_features : list point)
        (res : option (list clustered)) :
  let lc_classes := unique (LC_Class_I <$> training_features) in
  NoDup lc_classes
  ∧ (∀ i, i ∈ lc_classes ↔ ∃ p, p ∈ training_features ∧ LC_Class_I p = i)
  ∧ (filter_training_data training_features rand_samples_features = Ok res ↔
     ∃ kepts,
       Forall2 (λ i kept,
                  filter_class training_features rand_samples_features i = Ok kept)
               lc_classes kepts
       ∧ res = match kepts with [] => None | _ => Some (concat kepts) end).
Proof.
  intros lc_classes.
  destruct (unique_spec (LC_Class_I <$> training_features)) as [Hnodup Hin].
  split; [done|]. split.
  - intros i. unfold lc_classes. rewrite Hin, list_elem_of_fmap.
    split; intros (p & ? & ?); by exists p.
  - unfold filter_training_data. fold lc_classes. rewrite filtering_loop_Ok.
    split; intros (kepts & Hall & ->); exists kepts; split; try done;
      by rewrite foldl_append_filtered_None.
Qed.

Lemma of_class_other (df : list point) (i j : Z) :
  i ≠ j → of_class (filter (λ p, LC_Class_I p ≠ i) df) j = of_class df j.
Proof.
  intros Hij. unfold of_class. rewrite list_filter_filter.
  apply list_filter_iff. intros p. split; [by intros [? ?]|].
  intros Hj. split; [done|]. congruence.
Qed.

Lemma parts_of_other_classes (df : list point) (i : Z)
      (lc_classes : list Z) (parts : list (list point)) :
  i ∉ lc_classes →
  Forall2 (λ j part, part ⊆+ of_class df j) lc_classes parts →
  Forall2 (λ j part, part ⊆+ of_class (filter (λ p, LC_Class_I p ≠ i) df) j)
          lc_classes parts.
Proof.
  intros Hi Hall. induction Hall as [|j part lc_classes parts Hpart Hall IH];
    [constructor|].
  apply not_elem_of_cons in Hi as [Hij Hi].
  constructor; [|by apply IH].
  by rewrite of_class_other.
Qed.

Lemma concat_classes_submseteq (lc_classes : list Z) :
  ∀ (parts : list (list point)) df,
    NoDup lc_classes →
    Forall2 (λ i part, part ⊆+ of_class df i) lc_classes parts →
    concat parts ⊆+ df.
Proof.
  induction lc_classes as [|i lc_classes IH]; intros parts df Hnodup Hall.
  - apply Forall2_nil_inv_l in Hall as ->. apply submseteq_nil_l.
  - apply Forall2_cons_inv_l in Hall as (part & parts' & Hpart & Hrest & ->).
    apply NoDup_cons in Hnodup as [Hi Hnodup]. cbn [concat].
    rewrite <- (filter_app_complement (λ p, LC_Class_I p = i) df).
    apply submseteq_app; [done|].
    apply IH; [done|]. by apply parts_of_other_classes.
Qed.

(** X14. When the cell ends without exception on a table with at least one
    training point, the rows of the filtered table are training points of
    the input, none more often than in the input: filtering only removes
    points.  On an empty table the result is [None]. *)
Theorem filter_training_data_subset
        (training_features rand_samples_features : list point)
        (res : option (list clustered)) :
  filter_training_data training_features rand_samples_features = Ok res →
  match res with
  | None => training_features = []
  | Some out => training_features ≠ [] ∧ row <$> out ⊆+ training_features
  end.
Proof.
  unfold filter_training_data. rewrite filtering_loop_Ok.
  intros (kepts & Hall & ->). rewrite foldl_append_filtered_None.
  destruct (unique_spec (LC_Class_I <$> training_features)) as [Hnodup Hin].
  destruct kepts as [|kept kepts].
  - inv Hall. destruct training_features as [|p rest]; [done|].
    match goal with Hnil : [] = unique _ |- _ => cbn [fmap list_fmap unique] in Hnil end.
    done.
  - split.
    + intros ->. by inv Hall.
    + assert (Hparts : concat ((λ kept : list clustered, row <$> kept)
                                 <$> (kept :: kepts))
                       ⊆+ training_features).
      { apply (concat_classes_submseteq (unique (LC_Class_I <$> training_features)));
          [done|].
        apply Forall2_fmap_r. eapply Forall2_impl; [exact Hall|].
        intros i k Hk. cbn beta.
        apply sublist_submseteq. by apply (filter_class_sublist _ rand_samples_features). }
      assert (Heq : ∀ l : list (list clustered),
                 row <$> concat l
                 = concat ((λ kept : list clustered, row <$> kept) <$> l)).
      { induction l as [|k l IH]; [done|].
        cbn [concat]. rewrite fmap_cons, fmap_app. cbn [concat]. by rewrite IH. }
      by rewrite Heq.
Qed.

Lemma length_filter_impl {A} (P Q : A → Prop)
      `{!∀ x, Decision (P x), !∀ x, Decision (Q x)} (l : list A) :
  (∀ x, x ∈ l → P x → Q x) → (length (filter P l) ≤ length (filter Q l))%nat.
Proof.
  induction l as [|x l IH]; intros Himpl; [done|].
  rewrite !filter_cons.
  assert (Hrest : (length (filter P l) ≤ length (filter Q l))%nat).
  { apply IH. intros y Hy. apply Himpl. by right. }
  destruct (decide (P x)) as [HP|HP], (decide (Q x)) as [HQ|HQ];
    cbn [length]; try lia.
  exfalso. apply HQ, Himpl; [left|done].
Qed.

Lemma length_filter_split {A} (P : A → Prop) `{!∀ x, Decision (P x)} (l : list A) :
  length l = (length (filter P l) + length (filter (λ x, ¬ P x) l))%nat.
Proof. by rewrite <- length_app, filter_app_complement. Qed.

Lemma filter_all {A} (P : A → Prop) `{!∀ x, Decision (P x)} (l : list A) :
  (∀ x, x ∈ l → P x) → filter P l = l.
Proof.
  induction l as [|x l IH]; intros Hall; [done|].
  rewrite filter_cons_True by (apply Hall; left).
  f_equal. apply IH. intros y Hy. apply Hall. by right.
Qed.

(** Of labels drawn from [k + 1] values, one covers at least a share
    [1 / (k + 1)] of the list. *)
Lemma largest_share (k : nat) :
  ∀ labels : list Z,
    (∀ l, l ∈ labels → 0 ≤ l < Z.of_nat (S k)) →
    ∃ l, (length labels ≤ S k * length (filter (λ x, x = l) labels))%nat.
Proof.
  induction k as [|k IH]; intros labels Hrange.
  - exists 0. rewrite Nat.mul_1_l, filter_all; [done|].
    intros x Hx. specialize (Hrange x Hx). lia.
  - set (top := Z.of_nat (S k)).
    destruct (IH (filter (λ x, ¬ x = top) labels)) as [l Hl].
    { intros x [Hne Hx]%list_elem_of_filter. specialize (Hrange x Hx).
      unfold top in Hne. lia. }
    pose proof (length_filter_split (λ x, x = top) labels) as Hsplit.
    assert (Hcount : (length (filter (λ x, x = l) (filter (λ x, ¬ x = top) labels))
                      ≤ length (filter (λ x, x = l) labels))%nat).
    { rewrite list_filter_filter. apply length_filter_impl. by intros x _ [? _]. }
    destruct (le_lt_dec (length (filter (λ x, x = l) labels))
                        (length (filter (λ x, x = top) labels))).
    + exists top. nia.
    + exists l. nia.
Qed.

Lemma share_kept (c n : nat) :
  (0 < n)%nat → (n ≤ 20 * c)%nat →
  (frequency_threshold <= inject_Z (Z.of_nat c) / inject_Z (Z.of_nat n))%Q.
Proof.
  intros Hn Hc. apply Qle_shift_div_l.
  - replace 0%Q with (inject_Z 0) by reflexivity. rewrite <- Zlt_Qlt. lia.
  - unfold frequency_threshold, Qle, Qmult, inject_Z. cbn. lia.
Qed.



(** The row of a table made by [with_clusters] at each label of the list. *)
Lemma with_clusters_row (td : list point) (labels : list Z)
      (rows : list clustered) (l : Z) :
  with_clusters td labels = Ok rows → l ∈ labels →
  ∃ p, p ∈ rows ∧ cluster p = l.
Proof.
  intros [Hlabels _]%with_clusters_labels Hl. rewrite <- Hlabels in Hl.
  apply list_elem_of_fmap in Hl as (p & -> & Hp). eauto.
Qed.

(** With at most 20 clusters the filter at 0.05 keeps a largest cluster. *)
Lemma filter_keeps_some (td : list point) (labels : list Z)
      (rows : list clustered) :
  td ≠ [] →
  with_clusters td labels = Ok rows →
  (∀ l, l ∈ labels → 0 ≤ l < 20) →
  filter_by_frequency frequency_threshold rows ≠ [].
Proof.
  intros Htd Hrows Hrange.
  destruct (with_clusters_labels td labels rows Hrows) as [Hlabels Hfreq].
  assert (Hlen : length labels = length td).
  { unfold with_clusters in Hrows. by destruct (decide _). }
  assert (Hpos : (0 < length labels)%nat).
  { rewrite Hlen. destruct td; [done|simpl; lia]. }
  destruct (largest_share 19 labels) as [l Hl]; [intros x Hx; by apply Hrange|].
  assert (Hin : l ∈ labels).
  { destruct (filter (λ x, x = l) labels) as [|x rest] eqn:E; [simpl in Hl; lia|].
    assert (Hx : x ∈ filter (λ x, x = l) labels) by (rewrite E; left).
    by apply list_elem_of_filter in Hx as [-> ?]. }
  destruct (with_clusters_row td labels rows l Hrows Hin) as (p & Hp & Hcl).
  assert (Hkept : p ∈ filter_by_frequency frequency_threshold rows).
  { unfold filter_by_frequency. apply list_elem_of_filter. split; [|done].
    apply Qle_bool_iff. rewrite (Hfreq p Hp), Hcl.
    unfold value_counts_normalize. by apply share_kept. }
  intros Hnil. rewrite Hnil in Hkept. by apply elem_of_nil in Hkept.
Qed.

Lemma find_clusters_KMeans_fitted (data : features) (min_cluster max_cluster : Z)
      (found : Z * option kmeans * option (list Z)) (model : kmeans) :
  find_clusters_KMeans data min_cluster max_cluster = Ok found →
  found.1.2 = Some model →
  ∃ k, min_cluster ≤ k < max_cluster ∧ KMeans_fit k 1 data = Ok model.
Proof.
  unfold find_clusters_KMeans.
  destruct (decide (min_cluster < max_cluster)) as [Hlt|Hge]; cycle 1.
  { rewrite range_nil by lia. cbn [for_each mbind result_bind].
    intros [= <-]. done. }
  rewrite range_cons by done. cbn [for_each].
  destruct (try_cluster data _ min_cluster) as [s1|] eqn:Hstep; [|done].
  cbn [mbind result_bind].
  destruct (for_each (try_cluster data) s1 (range (min_cluster + 1) max_cluster))
    as [s2|] eqn:Hrun; [|done].
  cbn [mbind result_bind]. intros [= <-]. cbn [fst snd]. intros Hmodel.
  assert (Hs1 : scored data min_cluster (min_cluster + 1) s1).
  { destruct (try_cluster_scored data min_cluster min_cluster _ s1
                ltac:(lia) Hstep) as [Hs1|[_ Hsent]]; [done|].
    simpl in Hsent. discriminate. }
  replace max_cluster
    with (min_cluster + 1 + Z.of_nat (Z.to_nat (max_cluster - (min_cluster + 1))))
    in Hrun by lia.
  apply (for_each_scored data min_cluster) in Hrun; [|lia|done].
  destruct Hrun as (Hk & mdl & lab & Hm & Hl & Hfit & _).
  exists (n_cluster_optimal s2). split; [lia|]. congruence.
Qed.

(** X15. The loop body never filters a class with training points down
    to nothing: a model fitted for [n] clusters gives labels below [n], at
    most 19 here, so some cluster holds at least a share 1/19 of the
    points of the class, which is above the threshold 0.05. *)
Theorem filter_class_keeps_some
        (training_features rand_samples_features : list point)
        (i : Z) (kept : list clustered) :
  (∀ n data model input labels,
      0 < n → KMeans_fit n 1 data = Ok model → predict model input = Ok labels →
      ∀ l, l ∈ labels → 0 ≤ l < n) →
  filter_class training_features rand_samples_features i = Ok kept →
  of_class training_features i ≠ [] →
  kept ≠ [].
Proof.
  intros Hcontract
         (sc & standardized & found & model & model_input & labels & rows
          & _ & _ & Hfound & Hmodel & _ & Hlabels & Hrows & ->)%filter_class_inv
         Hclass.
  destruct (find_clusters_KMeans_fitted _ _ _ _ _ Hfound Hmodel) as (k & Hk & Hfit).
  apply (filter_keeps_some (of_class training_features i) labels); [done|done|].
  intros l Hl.
  specialize (Hcontract k standardized model model_input labels
                        ltac:(lia) Hfit Hlabels l Hl). lia.
Qed.

(** X16. Clusters are kept or dropped as a whole: two points of a class
    that fall in the same cluster are both kept or both dropped, at any
    threshold. *)
Theorem filter_by_frequency_whole_clusters (threshold : Q)
        (td : list point) (labels : list Z) (rows : list clustered)
        (p q : clustered) :
  with_clusters td labels = Ok rows →
  p ∈ rows → q ∈ rows → cluster p = cluster q →
  (p ∈ filter_by_frequency threshold rows ↔ q ∈ filter_by_frequency threshold rows).
Proof.
  intros [_ Hfreq]%with_clusters_labels Hp Hq Hsame.
  unfold filter_by_frequency. rewrite !list_elem_of_filter.
  rewrite (Hfreq p Hp), (Hfreq q Hq), Hsame. tauto.
Qed.


End FilterMore.

Section FilterMoreWitnesses.
Import FilterTD FilterCases Stub.

Lemma find_clusters_KMeans_raises_witness :
  find_clusters_KMeans four_samples 3 20 = Raise ValueError.
Proof.
  apply (find_clusters_KMeans_raises four_samples 3 20 4 ValueError).
  - lia.
  - intros m Hm. assert (m = 3) as -> by lia.
    eexists _, _, _; repeat split; reflexivity.
  - right. right. eexists _, _; repeat split; reflexivity.
Defined.

Lemma filter_class_keeps_points_witness :
  ∃ kept, row <$> kept `sublist_of` of_class (points 2 1) 2
          ∧ (∀ p, p ∈ kept → row p ∈ points 2 1 ∧ LC_Class_I (row p) = 2)
          ∧ (length kept ≤ length (of_class (points 2 1) 2))%nat.
Proof.
  eexists.
  apply (filter_class_keeps_points (points 2 1) (points 2 20) 2).
  vm_compute. reflexivity.
Defined.

Lemma filter_training_data_subset_witness :
  ∃ out, points 2 1 ≠ [] ∧ row <$> out ⊆+ points 2 1.
Proof.
  eexists.
  apply (filter_training_data_subset (points 2 1) (points 2 20) (Some _)).
  vm_compute. reflexivity.
Defined.

Lemma filter_class_keeps_some_witness :
  ∃ kept, filter_class (points 2 1) (points 2 20) 2 = Ok kept ∧ kept ≠ [].
Proof.
  eexists. split; [vm_compute; reflexivity|].
  apply (filter_class_keeps_some (points 2 1) (points 2 20) 2).
  - intros n data model input labels Hn Hfit Hpred l Hl.
    unfold KMeans_fit, sklearn, fit in Hfit.
    destruct (_ <? _); [done|]. injection Hfit as <-.
    unfold predict, assign in Hpred. injection Hpred as <-.
    apply list_elem_of_fmap in Hl as (x & -> & _).
    unfold nearest_centre. apply Z.mod_pos_bound. lia.
  - vm_compute. reflexivity.
  - vm_compute. discriminate.
Defined.

Lemma filter_by_frequency_whole_clusters_witness :
  first_row ∈ filter_by_frequency 0.05 three_rows ↔
  second_row ∈ filter_by_frequency 0.05 three_rows.
Proof.
  apply (filter_by_frequency_whole_clusters 0.05%Q (points 1 3) [0; 0; 1]
           three_rows first_row second_row).
  - reflexivity.
  - vm_compute. left.
  - vm_compute. right. left.
  - reflexivity.
Defined.


End FilterMoreWitnesses.

(** ** The map handed to the sampler *)

Section SampleFacts.
Import Np SampleCells.

Lemma get_da (reference_map : list (list Z)) (r c : nat) :
  get (da reference_map) r c
  = (λ v, if bool_decide (v = 3 ∨ v = 255) then 0 else v) <$> get reference_map r c.
Proof.
  unfold da, where_, and_, ne_scalar.
  rewrite !get_map2, !get_map1.
  destruct (get reference_map r c) as [v|]; [|done].
  cbn [fmap option_fmap option_map mbind option_bind]. f_equal.
  destruct (Z.eqb_spec 3 v) as [<-|H3]; [done|].
  destruct (Z.eqb_spec 255 v) as [<-|H255]; [done|].
  cbn [negb andb]. rewrite bool_decide_eq_false_2; [done|]. lia.
Qed.

Lemma get_slice2 {A} (a : list (list A)) (r0 r1 c0 c1 : Z) (r c : nat) :
  0 ≤ r0 → 0 ≤ c0 →
  get (slice c0 c1 <$> slice r0 r1 a) r c
  = if bool_decide (Z.of_nat r < r1 - r0 ∧ Z.of_nat c < c1 - c0)
    then get a (Z.to_nat r0 + r) (Z.to_nat c0 + c)
    else None.
Proof.
  intros Hr0 Hc0. unfold get, slice. rewrite list_lookup_fmap.
  destruct (decide (Z.of_nat r < r1 - r0)) as [Hr|Hr].
  - rewrite lookup_take_lt, lookup_drop by lia.
    destruct (a !! (Z.to_nat r0 + r)%nat) as [row|];
      cbn [fmap option_fmap option_map mbind option_bind].
    + destruct (decide (Z.of_nat c < c1 - c0)) as [Hc|Hc].
      * rewrite lookup_take_lt, lookup_drop by lia.
        by rewrite bool_decide_eq_true_2.
      * rewrite lookup_take_ge by lia.
        rewrite bool_decide_eq_false_2; [done|]. by intros [_ ?].
    + by destruct (bool_decide _).
  - rewrite lookup_take_ge by lia.
    rewrite bool_decide_eq_false_2; [done|]. by intros [? _].
Qed.

(** X18. The window handed to [random_sampling]: its pixel [(r, c)], for
    [r] and [c] below 5000, is the pixel [(10000 + r, 10000 + c)] of the
    reference map with the values 3 and 255 replaced by 0; the window ends
    where the map ends, without exception, and holds no 3 and no 255. *)
Theorem sampled_window_pixel (reference_map : list (list Z)) (r c : nat) :
  get (sampled_window reference_map) r c
  = (if bool_decide (Z.of_nat r < 5000 ∧ Z.of_nat c < 5000)
     then (λ v, if bool_decide (v = 3 ∨ v = 255) then 0 else v)
            <$> get reference_map (Z.to_nat 10000 + r) (Z.to_nat 10000 + c)
     else None)
  ∧ get (sampled_window reference_map) r c ≠ Some 3
  ∧ get (sampled_window reference_map) r c ≠ Some 255.
Proof.
  assert (Hget : get (sampled_window reference_map) r c
                 = if bool_decide (Z.of_nat r < 5000 ∧ Z.of_nat c < 5000)
                   then (λ v, if bool_decide (v = 3 ∨ v = 255) then 0 else v)
                          <$> get reference_map (Z.to_nat 10000 + r) (Z.to_nat 10000 + c)
                   else None).
  { unfold sampled_window. rewrite get_slice2 by lia.
    replace (15000 - 10000) with 5000 by lia.
    destruct (bool_decide _); [apply get_da|done]. }
  split; [done|]. rewrite Hget.
  destruct (bool_decide (Z.of_nat r < 5000 ∧ Z.of_nat c < 5000)); [|done].
  destruct (get reference_map _ _) as [v|];
    cbn [fmap option_fmap option_map]; [|done].
  destruct (bool_decide (v = 3 ∨ v = 255)) eqn:E; [done|].
  apply bool_decide_eq_false in E. split; intros [= ->]; apply E; auto.
Qed.

End SampleFacts.
